(** * MTProtoState: the session-state core of the MTProto 2.0 client

    A shallow embedding of [MTProtoState] (network/MTProtoState.js) and of the
    collaborators it calls, followed by the properties of the message-ID
    generator, the sequence generator, the replay window, the key deriver
    and the encrypt / decrypt pair.

    Conventions of the embedding.
    - A [Buffer] is a [list byte].
    - A big-integer value is a [Z]; [shiftLeft], [shiftRight] and [or] of the
      big-integer library are [Z.shiftl], [Z.shiftr] and [Z.lor] (floor
      semantics on negative numbers, as the library has).
    - JS numbers that only ever hold integers ([_sequence], [timeOffset],
      buffer lengths) are [Z]; they are exact below 2^53.
    - A method that mutates [this] takes the state and returns the new state
      next to its result. A method that can throw returns a [Result]; since a
      JS exception does not undo earlier assignments, the state reached at
      the throw is returned as well.
    - The wall clock is an explicit argument of each method that reads it. *)

From Stdlib Require Import ZArith List Bool Lia String Ascii Sorted.
From Stdlib Require Import Strings.Byte.
From Stdlib Require Import DecimalString DecimalZ.
Import ListNotations.

Local Open Scope Z_scope.

(* ------------------------------------------------------------------ *)
(** ** Buffers *)

Definition bytes : Type := list byte.

Module Buf.

Definition to_Z (b : byte) : Z := Z.of_N (Byte.to_N b).

Definition of_Z (z : Z) : byte :=
  match Byte.of_N (Z.to_N (z mod 256)) with
  | Some b => b
  | None => x00
  end.

Definition len (b : bytes) : Z := Z.of_nat (List.length b).

(** Index normalisation of [Buffer.prototype.slice]: a negative index
    counts from the end, and every index is clamped to [0, length]. *)
Definition clampIndex (n i : Z) : Z :=
  if i <? 0 then Z.max 0 (n + i) else Z.min i n.

(** [buf.slice(start, stop)] *)
Definition slice (b : bytes) (start stop : Z) : bytes :=
  let s := clampIndex (len b) start in
  let e := clampIndex (len b) stop in
  firstn (Z.to_nat (e - s)) (skipn (Z.to_nat s) b).

(** [buf.slice(start)] *)
Definition sliceFrom (b : bytes) (start : Z) : bytes :=
  slice b start (len b).

(** [Buffer.concat([...])] *)
Definition concat (l : list bytes) : bytes := List.concat l.

(** [a.equals(b)] *)
Fixpoint equals (a b : bytes) : bool :=
  match a, b with
  | [], [] => true
  | x :: a', y :: b' => Byte.eqb x y && equals a' b'
  | _, _ => false
  end.

(** [n] bytes of [z], least significant first: byte [i] is
    [(z >> 8*i) & 255]. *)
Fixpoint le_bytes (n : nat) (z : Z) : bytes :=
  match n with
  | O => []
  | S n' => of_Z (Z.land z 255) :: le_bytes n' (Z.shiftr z 8)
  end.

(** The unsigned value of a little-endian buffer. *)
Fixpoint le_value (b : bytes) : Z :=
  match b with
  | [] => 0
  | x :: b' => to_Z x + 256 * le_value b'
  end.

(** The two's-complement value of a little-endian buffer. *)
Definition le_signed (b : bytes) : Z :=
  let v := le_value b in
  let w := 2 ^ (8 * len b) in
  if 2 * v <? w then v else v - w.

End Buf.

(* ------------------------------------------------------------------ *)
(** ** The state object and its clock *)

(** The authorization key object: [getKey()] yields the 256 raw bytes once
    negotiated, [keyId] the key identifier. *)
Record AuthKey := mkAuthKey {
  getKey : option bytes;
  keyId : option Z
}.

(** The fields of [MTProtoState]. [salt] and [id] are big integers; they are
    [None] when the field is [undefined] (a big-integer object is truthy
    whatever its value, so only [undefined] trips the [!this.salt] test).
    [msgIds] holds the decimal strings of the remote message IDs. *)
Record MTProtoState := mkState {
  authKey : option AuthKey;
  timeOffset : Z;
  salt : option Z;
  _sequence : Z;
  id : option Z;
  _lastMsgId : Z;
  msgIds : list string;
  securityChecks : bool
}.

Definition set_sequence (s : MTProtoState) (v : Z) : MTProtoState :=
  mkState (authKey s) (timeOffset s) (salt s) v (id s) (_lastMsgId s)
          (msgIds s) (securityChecks s).

Definition set_lastMsgId (s : MTProtoState) (v : Z) : MTProtoState :=
  mkState (authKey s) (timeOffset s) (salt s) (_sequence s) (id s) v
          (msgIds s) (securityChecks s).

Definition set_timeOffset (s : MTProtoState) (v : Z) : MTProtoState :=
  mkState (authKey s) v (salt s) (_sequence s) (id s) (_lastMsgId s)
          (msgIds s) (securityChecks s).

Definition set_msgIds (s : MTProtoState) (v : list string) : MTProtoState :=
  mkState (authKey s) (timeOffset s) (salt s) (_sequence s) (id s)
          (_lastMsgId s) v (securityChecks s).

Definition set_salt (s : MTProtoState) (v : option Z) : MTProtoState :=
  mkState (authKey s) (timeOffset s) v (_sequence s) (id s)
          (_lastMsgId s) (msgIds s) (securityChecks s).

(** One reading of the wall clock, [new Date().getTime() / 1000], as the code
    consumes it: the whole seconds [Math.floor(t)] and the sub-second part
    [Math.floor((t - Math.floor(t)) * 1e9)]. The second component is the
    outcome of a floating-point computation; it is taken as observed, and
    every property below holds for all values of both components. Since
    [timeOffset] is an integer, [Math.floor(t + timeOffset)] is
    [seconds + timeOffset]. *)
Record Clock := mkClock {
  seconds : Z;
  nanos : Z
}.

(** [reset()]: a new random session id ([generateRandomLong(true)], here the
    argument [sid]), counters and replay window cleared. *)
Definition reset (s : MTProtoState) (sid : Z) : MTProtoState :=
  mkState (authKey s) (timeOffset s) (salt s) 0 (Some sid) 0 []
          (securityChecks s).

(** [new MTProtoState(authKey, loggers, securityChecks)] *)
Definition constructor (k : option AuthKey) (checks : bool) (sid : Z)
  : MTProtoState :=
  reset (mkState k 0 (Some 0) 0 (Some 0) 0 [] checks) sid.

(** [_getSeqNo(contentRelated)] *)
Definition _getSeqNo (s : MTProtoState) (contentRelated : bool)
  : Z * MTProtoState :=
  if contentRelated then
    let result := _sequence s * 2 + 1 in
    (result, set_sequence s (_sequence s + 1))
  else
    (_sequence s * 2, s).

(** The clock-derived candidate of [_getNewMsgId]. *)
Definition candidateMsgId (s : MTProtoState) (c : Clock) : Z :=
  Z.lor (Z.shiftl (seconds c + timeOffset s) 32) (Z.shiftl (nanos c) 2).

(** [_getNewMsgId()] *)
Definition _getNewMsgId (s : MTProtoState) (c : Clock) : Z * MTProtoState :=
  let newMsgId := candidateMsgId s c in
  let newMsgId :=
    if _lastMsgId s >=? newMsgId then _lastMsgId s + 4 else newMsgId in
  (newMsgId, set_lastMsgId s newMsgId).

(** [updateMessageId(message)]: the message is given a fresh ID, returned
    here in place of the assignment to [message.msgId]. *)
Definition updateMessageId (s : MTProtoState) (c : Clock)
  : Z * MTProtoState :=
  _getNewMsgId s c.

(** [updateTimeOffset(correctMsgId)]. The method reads the clock twice:
    [c1] inside [_getNewMsgId], [c2] for [now]. *)
Definition updateTimeOffset (s : MTProtoState) (c1 c2 : Clock)
  (correctMsgId : Z) : Z * MTProtoState :=
  let '(bad, s1) := _getNewMsgId s c1 in
  let old := timeOffset s1 in
  let now := seconds c2 in
  let correct := Z.shiftr correctMsgId 32 in
  let s2 := set_timeOffset s1 (correct - now) in
  let s3 := if negb (timeOffset s2 =? old) then set_lastMsgId s2 0 else s2 in
  (timeOffset s3, s3).

(** Successive calls of a generator, the state threaded through. *)
Fixpoint runSeqNo (s : MTProtoState) (flags : list bool)
  : list Z * MTProtoState :=
  match flags with
  | [] => ([], s)
  | f :: fs =>
      let '(r, s1) := _getSeqNo s f in
      let '(rs, s2) := runSeqNo s1 fs in
      (r :: rs, s2)
  end.

Fixpoint runNewMsgId (s : MTProtoState) (cs : list Clock)
  : list Z * MTProtoState :=
  match cs with
  | [] => ([], s)
  | c :: cs' =>
      let '(r, s1) := _getNewMsgId s c in
      let '(rs, s2) := runNewMsgId s1 cs' in
      (r :: rs, s2)
  end.

(* ------------------------------------------------------------------ *)
(** ** Helpers and extensions *)

Inductive Error : Type :=
| JsError (msg : string)            (* [new Error(msg)] *)
| InvalidBufferError (payload : bytes)
| SecurityError (msg : string)
| RangeError                        (* a Buffer read or write out of range *)
| DecodeError.                      (* the object decoder threw *)

Inductive Result (A : Type) : Type :=
| Ok (a : A)
| Err (e : Error).
Arguments Ok {A} a.
Arguments Err {A} e.

Definition authKeyUnset : Error := JsError "Auth key unset".
Definition unsetParams : Error := JsError "Unset params".
Definition invalidAuthKey : Error :=
  SecurityError "Server replied with an invalid auth key".
Definition unsetAuthKey : Error := SecurityError "Unset AuthKey".
Definition msgKeyMismatch : Error :=
  SecurityError "Received msg_key doesn't match with expected one".
Definition duplicateMsgIds : Error := SecurityError "Duplicate msgIds".

Module Helpers.

(** Modelled from the spec: Helpers.js is not part of the sources at hand.
    [mod(n, m)] is the mathematical remainder, in [0, m) for positive [m]. *)
Definition mod_ (n m : Z) : Z := n mod m.

(** Modelled from the spec: Helpers.js is not part of the sources at hand.
    [toSignedLittleBuffer(big, number)] is the [number]-byte little-endian
    two's-complement encoding of [big]. *)
Definition toSignedLittleBuffer (big : Z) (number : nat) : bytes :=
  Buf.le_bytes number big.

(** Modelled from the spec: Helpers.js is not part of the sources at hand.
    [readBufferFromBigInt(v, n)] writes the key identifier as [n] bytes,
    little-endian as every integer of the wire format. *)
Definition readBufferFromBigInt (v : Z) (number : nat) : bytes :=
  Buf.le_bytes number v.

(** Modelled from the spec: Helpers.js is not part of the sources at hand.
    [readBigIntFromBuffer(buf)] reads an unsigned little-endian integer. *)
Definition readBigIntFromBuffer (b : bytes) : Z := Buf.le_value b.

(** Modelled from the spec: Helpers.js is not part of the sources at hand.
    [generateRandomBytes(n)] returns [n] random bytes. The randomness is
    the entropy tape [rnd], of which the first [n] cells are taken. *)
Definition generateRandomBytes (rnd : nat -> byte) (n : Z) : bytes :=
  map rnd (seq 0 (Z.to_nat n)).

(** [big.toString()]: the decimal form of a big integer. *)
Definition toString (z : Z) : string := NilZero.string_of_int (Z.to_int z).

(** [arr.includes(str)] on an array of strings. *)
Definition includes (l : list string) (x : string) : bool :=
  existsb (String.eqb x) l.

(** [arr.shift()]: drops the first element. *)
Definition shift (l : list string) : list string := tl l.

(** [arr.push(x)] *)
Definition push (l : list string) (x : string) : list string := l ++ [x].

End Helpers.

(** extensions/BinaryWriter.js *)
Module BinaryWriter.
Record t := mk { _stream : bytes }.
Definition write (w : t) (buffer : bytes) : t :=
  mk (Buf.concat [_stream w; buffer]).
Definition getValue (w : t) : bytes := _stream w.
End BinaryWriter.

(** Modelled from the spec: extensions/BinaryReader.js is not part of the
    sources at hand. The reader consumes the plaintext front to back:
    [readLong] takes 8 bytes and [readInt] 4 bytes, both little-endian and
    signed, and a read past the end throws. A reader is represented by the
    bytes it has not consumed yet. *)
Module BinaryReader.
Definition t : Type := bytes.

Definition read (r : t) (n : nat) : option (bytes * t) :=
  if (n <=? List.length r)%nat then Some (firstn n r, skipn n r) else None.

Definition readLong (r : t) : option (Z * t) :=
  match read r 8 with
  | Some (b, r') => Some (Buf.le_signed b, r')
  | None => None
  end.

Definition readInt (r : t) : option (Z * t) :=
  match read r 4 with
  | Some (b, r') => Some (Buf.le_signed b, r')
  | None => None
  end.
End BinaryReader.

(** [buf.writeInt32LE(v, 0)] on a fresh 4-byte buffer: throws outside the
    signed 32-bit range. *)
Definition writeInt32LE (v : Z) : Result bytes :=
  if (- 2 ^ 31 <=? v) && (v <? 2 ^ 31)
  then Ok (Buf.le_bytes 4 v)
  else Err RangeError.

(* ------------------------------------------------------------------ *)
(** ** Collaborators *)

(** The primitives the state object consumes through their interface only:
    the digest, the IGE cipher (key, then iv, then data), the object decoder
    of the serialization layer (reading one object from the bytes left in
    the reader), and the two body transformations of the framing step. *)
Class Collaborators := {
  sha256 : bytes -> bytes;
  encryptIge : bytes -> bytes -> bytes -> bytes;
  decryptIge : bytes -> bytes -> bytes -> bytes;
  TLObject : Type;
  tgReadObject : bytes -> option TLObject;
  gzipIfSmaller : bool -> bytes -> bytes;
  invokeAfterMsg : Z -> bytes -> bytes
}.

Record KeyIv := mkKeyIv { key : bytes; iv : bytes }.

Record TLMessage `{C : Collaborators} := mkTLMessage {
  msgId : Z;
  seqNo : Z;
  obj : TLObject
}.

Section WithCollaborators.
Context `{C : Collaborators}.

(** [_calcKey(authKey, msgKey, client)] *)
Definition _calcKey (authKey msgKey : bytes) (client : bool) : KeyIv :=
  let x := if client then 0 else 8 in
  let sha256a := sha256 (Buf.concat [msgKey; Buf.slice authKey x (x + 36)]) in
  let sha256b :=
    sha256 (Buf.concat [Buf.slice authKey (x + 40) (x + 76); msgKey]) in
  let key := Buf.concat [Buf.slice sha256a 0 8;
                         Buf.slice sha256b 8 24;
                         Buf.slice sha256a 24 32] in
  let iv := Buf.concat [Buf.slice sha256b 0 8;
                        Buf.slice sha256a 8 24;
                        Buf.slice sha256b 24 32] in
  mkKeyIv key iv.

(** The 16-byte envelope header and the body, as written to the sink by
    [writeDataAsMessage]. *)
Definition envelope (msgId seqNo : Z) (body : bytes) : Result bytes :=
  match writeInt32LE seqNo with
  | Err e => Err e
  | Ok s =>
      match writeInt32LE (Buf.len body) with
      | Err e => Err e
      | Ok b =>
          let m := Helpers.toSignedLittleBuffer msgId 8 in
          Ok (Buf.concat [Buf.concat [m; s; b]; body])
      end
  end.

(** [writeDataAsMessage(buffer, data, contentRelated, afterId)] *)
Definition writeDataAsMessage (s : MTProtoState) (c : Clock)
  (buffer : BinaryWriter.t) (data : bytes) (contentRelated : bool)
  (afterId : option Z) : Result (Z * BinaryWriter.t) * MTProtoState :=
  let '(msgId, s1) := _getNewMsgId s c in
  let '(seqNo, s2) := _getSeqNo s1 contentRelated in
  let body :=
    match afterId with
    | None => gzipIfSmaller contentRelated data
    | Some a => gzipIfSmaller contentRelated (invokeAfterMsg a data)
    end in
  match envelope msgId seqNo body with
  | Err e => (Err e, s2)
  | Ok framed => (Ok (msgId, BinaryWriter.write buffer framed), s2)
  end.

(** The length of the random padding of [encryptMessageData], for a
    plaintext (salt and session id included) of [n] bytes. *)
Definition paddingLength (n : Z) : Z :=
  Helpers.mod_ (- (n + 12)) 16 + 12.

(** [encryptMessageData(data)]. [rnd] is the entropy consumed by
    [generateRandomBytes]. [await this.authKey.waitForKey()] returns once
    the key object has its identifier, and the definition gives the outcome
    of the call from there on; while the identifier is unset the real call
    stays pending, a case no property below speaks of (each one has the
    identifier present). No field of the state is assigned. *)
Definition encryptMessageData (s : MTProtoState) (rnd : nat -> byte)
  (data : bytes) : Result bytes :=
  match authKey s with
  | None => Err authKeyUnset
  | Some ak =>
      match getKey ak with
      | None => Err authKeyUnset
      | Some authKey =>
          match salt s, id s, keyId ak with
          | Some salt, Some sid, Some kid =>
              let s_ := Helpers.toSignedLittleBuffer salt 8 in
              let i := Helpers.toSignedLittleBuffer sid 8 in
              let data := Buf.concat [Buf.concat [s_; i]; data] in
              let padding :=
                Helpers.generateRandomBytes rnd
                  (paddingLength (Buf.len data)) in
              let msgKeyLarge :=
                sha256 (Buf.concat [Buf.slice authKey 88 (88 + 32);
                                    data; padding]) in
              let msgKey := Buf.slice msgKeyLarge 8 24 in
              let ki := _calcKey authKey msgKey true in
              let keyId := Helpers.readBufferFromBigInt kid 8 in
              Ok (Buf.concat [keyId; msgKey;
                    encryptIge (key ki) (iv ki)
                      (Buf.concat [data; padding])])
          | _, _, _ => Err unsetParams
          end
      end
  end.

(** The replay-window update of [decryptMessageData]: drop the oldest
    entry when more than 500 are stored, then append. *)
Definition recordMsgId (ids : list string) (x : string) : list string :=
  let ids := if Z.of_nat (List.length ids) >? 500
             then Helpers.shift ids else ids in
  Helpers.push ids x.

(** [decryptMessageData(body)], first half: the checks on the frame and
    the decryption, up to and including the message-key comparison. No
    field of the state is assigned here. *)
Definition decryptBody (s : MTProtoState) (body : bytes) : Result bytes :=
  match authKey s with
  | None => Err authKeyUnset
  | Some ak =>
    if Buf.len body <? 8 then Err (InvalidBufferError body) else
    let keyId_ := Helpers.readBigIntFromBuffer (Buf.slice body 0 8) in
    match keyId ak with
    | None => Err invalidAuthKey
    | Some kid =>
      if negb (keyId_ =? kid) then Err invalidAuthKey else
      match getKey ak with
      | None => Err unsetAuthKey
      | Some authKey =>
        let msgKey := Buf.slice body 8 24 in
        let ki := _calcKey authKey msgKey false in
        let body := decryptIge (key ki) (iv ki) (Buf.sliceFrom body 24) in
        let ourKey :=
          sha256 (Buf.concat [Buf.slice authKey 96 (96 + 32); body]) in
        if negb (Buf.equals msgKey (Buf.slice ourKey 8 24))
        then Err msgKeyMismatch
        else Ok body
      end
    end
  end.

(** The three leading [readLong] calls on the plaintext: the salt (dropped),
    the session id (compared, the mismatch branch is empty) and the remote
    message ID, with the reader after them. *)
Definition readHeader (body : bytes) : option (Z * BinaryReader.t) :=
  match BinaryReader.readLong body with
  | None => None
  | Some (_, r1) =>
      match BinaryReader.readLong r1 with
      | None => None
      | Some (serverId, r2) => BinaryReader.readLong r2
      end
  end.

(** [decryptMessageData(body)], second half: reading the plaintext, the
    replay window, and the decoding of the object. *)
Definition readMessage (s : MTProtoState) (body : bytes)
  : Result TLMessage * MTProtoState :=
  match readHeader body with
  | None => (Err RangeError, s)
  | Some (remoteMsgId, r3) =>
      if Helpers.includes (msgIds s) (Helpers.toString remoteMsgId)
         && securityChecks s
      then (Err duplicateMsgIds, s) else
      let s1 :=
        set_msgIds s
          (recordMsgId (msgIds s) (Helpers.toString remoteMsgId)) in
      match BinaryReader.readInt r3 with
      | None => (Err RangeError, s1)
      | Some (remoteSequence, r4) =>
          match BinaryReader.readInt r4 with
          | None => (Err RangeError, s1)
          | Some (_, r5) =>
              match tgReadObject r5 with
              | None => (Err DecodeError, s1)
              | Some obj =>
                  (Ok (mkTLMessage _ remoteMsgId remoteSequence obj), s1)
              end
          end
      end
  end.

(** [decryptMessageData(body)] *)
Definition decryptMessageData (s : MTProtoState) (body : bytes)
  : Result TLMessage * MTProtoState :=
  match decryptBody s body with
  | Err e => (Err e, s)
  | Ok body => readMessage s body
  end.

(** The states a connection can bring its state object into: built by the
    constructor, then driven by the methods ([updateMessageId] moves the
    state as [_getNewMsgId] does); the salt is assigned from outside when
    the server issues a new one. *)
Inductive reachable : MTProtoState -> Prop :=
| reach_new k checks sid : reachable (constructor k checks sid)
| reach_reset s sid : reachable s -> reachable (reset s sid)
| reach_salt s v : reachable s -> reachable (set_salt s v)
| reach_msgId s c : reachable s -> reachable (snd (_getNewMsgId s c))
| reach_seqNo s f : reachable s -> reachable (snd (_getSeqNo s f))
| reach_offset s c1 c2 m :
    reachable s -> reachable (snd (updateTimeOffset s c1 c2 m))
| reach_write s c w d f a :
    reachable s -> reachable (snd (writeDataAsMessage s c w d f a))
| reach_decrypt s body :
    reachable s -> reachable (snd (decryptMessageData s body)).

End WithCollaborators.

(* ------------------------------------------------------------------ *)
(** ** The specification's wording *)

(** [b[i:j]], the bytes of [b] from offset [i] up to, not including, [j]. *)
Definition range (b : bytes) (i j : nat) : bytes :=
  firstn (j - i) (skipn i b).

(** The key deriver as the protocol description writes it: [x] is 0 or 8,
    two digests over the message key and two windows of the master key,
    three pieces of each digest interleaved. *)
Definition calcKey_spec `{C : Collaborators} (masterKey messageKey : bytes)
  (flag : bool) : KeyIv :=
  let x := if flag then 0%nat else 8%nat in
  let sha256a := sha256 (messageKey ++ range masterKey x (x + 36)) in
  let sha256b := sha256 (range masterKey (x + 40) (x + 76) ++ messageKey) in
  mkKeyIv (range sha256a 0 8 ++ range sha256b 8 24 ++ range sha256a 24 32)
          (range sha256b 0 8 ++ range sha256a 8 24 ++ range sha256b 24 32).

(** A frame as the remote side builds it for this client, which is what
    [decryptMessageData] checks for: the message key is taken from the
    master-key window at 96 and the cipher key is derived with the flag off.
    [pt] is the padded plaintext. *)
Definition remoteFrame `{C : Collaborators} (kid : Z) (masterKey pt : bytes)
  : bytes :=
  let msgKey := range (sha256 (range masterKey 96 128 ++ pt)) 8 24 in
  let ki := _calcKey masterKey msgKey false in
  Buf.le_bytes 8 kid ++ msgKey ++ encryptIge (key ki) (iv ki) pt.

(** The plaintext [decryptMessageData] recovers from a frame, and the
    message key it expects for it. *)
Definition framePlaintext `{C : Collaborators} (masterKey body : bytes) : bytes :=
  let ki := calcKey_spec masterKey (range body 8 24) false in
  decryptIge (key ki) (iv ki) (skipn 24 body).

Definition expectedMsgKey `{C : Collaborators} (masterKey body : bytes) : bytes :=
  range (sha256 (range masterKey 96 128 ++ framePlaintext masterKey body))
        8 24.

(** What every reachable state satisfies: message IDs are non-negative
    multiples of 4 and the replay window holds at most 501 entries. *)
Definition state_inv (s : MTProtoState) : Prop :=
  _lastMsgId s mod 4 = 0
  /\ 0 <= _lastMsgId s
  /\ (List.length (msgIds s) <= 501)%nat.

(** Successive calls of [decryptMessageData], the state threaded through. *)
Fixpoint decryptEach `{C : Collaborators} (s : MTProtoState)
  (bodies : list bytes) : list (Result TLMessage) * MTProtoState :=
  match bodies with
  | [] => ([], s)
  | b :: bs =>
      let '(r, s1) := decryptMessageData s b in
      let '(rs, s2) := decryptEach s1 bs in
      (r :: rs, s2)
  end.

(** The body [writeDataAsMessage] frames: the data, wrapped when an
    earlier message is to be waited for, after the optional compression. *)
Definition framedBody `{C : Collaborators} (data : bytes) (f : bool)
  (a : option Z) : bytes :=
  match a with
  | None => gzipIfSmaller f data
  | Some x => gzipIfSmaller f (invokeAfterMsg x data)
  end.

(* ------------------------------------------------------------------ *)
(** ** A concrete set of collaborators

    Used to run the state object on concrete inputs. The digest is SHA-256
    itself. The cipher and the decoder are small stand-ins that satisfy the
    interface: the cipher adds a key stream made of the key and the iv to
    the data, byte by byte, and subtracts it to decrypt; an object is a
    length byte followed by that many bytes, and whatever follows it in the
    reader is left alone. *)

(** SHA-256 (FIPS 180-4) on byte strings; words are integers below 2^32. *)
Module SHA256.

Definition w32 (x : Z) : Z := Z.land x 0xffffffff.
Definition add32 (x y : Z) : Z := w32 (x + y).
Definition rotr (n x : Z) : Z :=
  Z.lor (Z.shiftr x n) (w32 (Z.shiftl x (32 - n))).
Definition not32 (x : Z) : Z := Z.lxor x 0xffffffff.

Definition Ch (x y z : Z) : Z := Z.lxor (Z.land x y) (Z.land (not32 x) z).
Definition Maj (x y z : Z) : Z :=
  Z.lxor (Z.lxor (Z.land x y) (Z.land x z)) (Z.land y z).
Definition bsig0 (x : Z) : Z :=
  Z.lxor (Z.lxor (rotr 2 x) (rotr 13 x)) (rotr 22 x).
Definition bsig1 (x : Z) : Z :=
  Z.lxor (Z.lxor (rotr 6 x) (rotr 11 x)) (rotr 25 x).
Definition ssig0 (x : Z) : Z :=
  Z.lxor (Z.lxor (rotr 7 x) (rotr 18 x)) (Z.shiftr x 3).
Definition ssig1 (x : Z) : Z :=
  Z.lxor (Z.lxor (rotr 17 x) (rotr 19 x)) (Z.shiftr x 10).

Definition K : list Z :=
  [1116352408; 1899447441; 3049323471; 3921009573;
   961987163; 1508970993; 2453635748; 2870763221;
   3624381080; 310598401; 607225278; 1426881987;
   1925078388; 2162078206; 2614888103; 3248222580;
   3835390401; 4022224774; 264347078; 604807628;
   770255983; 1249150122; 1555081692; 1996064986;
   2554220882; 2821834349; 2952996808; 3210313671;
   3336571891; 3584528711; 113926993; 338241895;
   666307205; 773529912; 1294757372; 1396182291;
   1695183700; 1986661051; 2177026350; 2456956037;
   2730485921; 2820302411; 3259730800; 3345764771;
   3516065817; 3600352804; 4094571909; 275423344;
   430227734; 506948616; 659060556; 883997877;
   958139571; 1322822218; 1537002063; 1747873779;
   1955562222; 2024104815; 2227730452; 2361852424;
   2428436474; 2756734187; 3204031479; 3329325298].

Record hash := mkHash { ha : Z; hb : Z; hc : Z; hd : Z;
                        he : Z; hf : Z; hg : Z; hh : Z }.

Definition H0 : hash :=
  mkHash 1779033703 3144134277 1013904242 2773480762
         1359893119 2600822924 528734635 1541459225.

(** Big-endian words. *)
Definition be_bytes (n : nat) (x : Z) : bytes :=
  map (fun i => Buf.of_Z (Z.shiftr x (8 * Z.of_nat (n - 1 - i))))
      (seq 0 n).

Definition be_value (b : bytes) : Z :=
  fold_left (fun acc x => 256 * acc + Buf.to_Z x) b 0.

Fixpoint words (n : nat) (b : bytes) : list Z :=
  match n with
  | O => []
  | S n' => be_value (firstn 4 b) :: words n' (skipn 4 b)
  end.

(** Message padding: a 1 bit, zeros up to 56 mod 64, the bit length. *)
Definition pad (m : bytes) : bytes :=
  let l := Z.of_nat (List.length m) in
  let k := (55 - l) mod 64 in
  m ++ [x80] ++ repeat x00 (Z.to_nat k) ++ be_bytes 8 (8 * l).

(** The message schedule, newest word first. *)
Fixpoint schedule (n : nat) (ws : list Z) : list Z :=
  match n with
  | O => ws
  | S n' =>
      let w := add32 (add32 (ssig1 (nth 1 ws 0)) (nth 6 ws 0))
                     (add32 (ssig0 (nth 14 ws 0)) (nth 15 ws 0)) in
      schedule n' (w :: ws)
  end.

Definition round (h : hash) (kw : Z * Z) : hash :=
  let '(k, w) := kw in
  let t1 := add32 (add32 (add32 (hh h) (bsig1 (he h)))
                         (add32 (Ch (he h) (hf h) (hg h)) k)) w in
  let t2 := add32 (bsig0 (ha h)) (Maj (ha h) (hb h) (hc h)) in
  mkHash (add32 t1 t2) (ha h) (hb h) (hc h)
         (add32 (hd h) t1) (he h) (hf h) (hg h).

Definition compress (h : hash) (block : bytes) : hash :=
  let ws := rev (schedule 48 (rev (words 16 block))) in
  let r := fold_left round (combine K ws) h in
  mkHash (add32 (ha h) (ha r)) (add32 (hb h) (hb r))
         (add32 (hc h) (hc r)) (add32 (hd h) (hd r))
         (add32 (he h) (he r)) (add32 (hf h) (hf r))
         (add32 (hg h) (hg r)) (add32 (hh h) (hh r)).

Fixpoint blocks (n : nat) (h : hash) (b : bytes) : hash :=
  match n with
  | O => h
  | S n' => blocks n' (compress h (firstn 64 b)) (skipn 64 b)
  end.

Definition digest (m : bytes) : bytes :=
  let p := pad m in
  let h := blocks (Nat.div (List.length p) 64) H0 p in
  List.concat (map (be_bytes 4)
    [ha h; hb h; hc h; hd h; he h; hf h; hg h; hh h]).

End SHA256.

Module Demo.

Fixpoint addStream (sign : Z) (ks : bytes) (j : nat) (p : bytes) : bytes :=
  match p with
  | [] => []
  | x :: p' =>
      let k := nth (Nat.modulo j (List.length ks)) ks x00 in
      Buf.of_Z (Buf.to_Z x + sign * Buf.to_Z k) :: addStream sign ks (S j) p'
  end.

Definition encrypt (k i p : bytes) : bytes := addStream 1 (k ++ i) 0 p.
Definition decrypt (k i p : bytes) : bytes := addStream (-1) (k ++ i) 0 p.

Definition readObject (r : bytes) : option bytes :=
  match r with
  | [] => None
  | n :: rest =>
      let n := Z.to_nat (Buf.to_Z n) in
      if (n <=? List.length rest)%nat then Some (firstn n rest) else None
  end.

(** [InvokeAfterMsg]: constructor number, message ID, then the query. *)
Definition invokeAfter (a : Z) (data : bytes) : bytes :=
  Buf.le_bytes 4 0xcb9f372d ++ Buf.le_bytes 8 a ++ data.

#[export] Instance collaborators : Collaborators := {
  sha256 := SHA256.digest;
  encryptIge := encrypt;
  decryptIge := decrypt;
  TLObject := bytes;
  tgReadObject := readObject;
  gzipIfSmaller := fun _ data => data;
  invokeAfterMsg := invokeAfter
}.

(** A 256-byte master key (bytes 0, 1, ..., 255) and a state around it. *)
Definition masterKey : bytes :=
  map (fun n => Buf.of_Z (Z.of_nat n)) (seq 0 256).

Definition key : AuthKey := mkAuthKey (Some masterKey) (Some 0x1122334455667788).

Definition state (checks : bool) : MTProtoState :=
  set_salt (constructor (Some key) checks 0x0102030405060708) (Some 77).

(** A padded plaintext carrying message ID [m], sequence number 1 and the
    three-byte object [7; 8; 9], as the remote side would send it. *)
Definition plaintext (m : Z) : bytes :=
  Buf.le_bytes 8 77 ++ Buf.le_bytes 8 0x0102030405060708
  ++ Buf.le_bytes 8 m ++ Buf.le_bytes 4 1 ++ Buf.le_bytes 4 4
  ++ [x03; x07; x08; x09] ++ repeat xaa 12.

Definition frame (m : Z) : bytes :=
  remoteFrame 0x1122334455667788 masterKey (plaintext m).

(** The state after decrypting the frames of the message IDs 1, ..., n
    on a fresh state with security checks on. *)
Definition stateAfter (n : nat) : MTProtoState :=
  snd (decryptEach (state true) (map frame (map Z.of_nat (seq 1 n)))).

(** A framed payload: message ID 1234, sequence number 1, the object
    [7; 8; 9]. *)
Definition payload : bytes :=
  Buf.le_bytes 8 1234 ++ Buf.le_bytes 4 1 ++ Buf.le_bytes 4 4
  ++ [x03; x07; x08; x09].

(** What the state's own [encryptMessageData] returns for [payload] when
    every padding byte drawn is 0x55: the key identifier, the message key
    and 48 bytes of ciphertext. *)
Definition ownFrame : bytes :=
  [x88; x77; x66; x55; x44; x33; x22; x11; x0a; x2f; x6a; x65;
   x55; xe1; x04; xb5; xca; x7b; x32; xf3; x17; x15; x64; x1a;
   xc5; xfc; x49; x2f; x93; x5f; xb3; xb4; x73; xd1; x81; x6d;
   xe5; xe0; xd0; xcc; xbf; xa8; x19; x98; xfc; x1b; xb5; x55;
   x73; x10; xce; xdd; xf5; x23; x7b; xa2; xf2; x2e; x15; xd1;
   xab; xdc; xdc; xe7; x5a; x7d; xf6; x75; x67; x52; x23; x46].

(** A frame with the right key identifier and 40 zero bytes after it. *)
Definition zeroFrame : bytes :=
  Buf.le_bytes 8 0x1122334455667788 ++ repeat x00 40.

End Demo.

(** More sample inputs for the concrete collaborators. *)
Module Sample.

(** A remote frame whose object announces 9 bytes and brings 1. *)
Definition undecodable : bytes :=
  remoteFrame (C := Demo.collaborators) 0x1122334455667788 Demo.masterKey
    (Buf.le_bytes 8 77 ++ Buf.le_bytes 8 0x0102030405060708
     ++ Buf.le_bytes 8 5555 ++ Buf.le_bytes 4 1 ++ Buf.le_bytes 4 2
     ++ [x09; x01]).

(** Ten bytes: the key identifier and two more. *)
Definition shortFrame : bytes :=
  Buf.le_bytes 8 0x1122334455667788 ++ [x00; x01].

(** A master key of 256 equal bytes. *)
Definition flatKey : bytes := repeat x07 256.

(** A sink holding three bytes already. *)
Definition sink : BinaryWriter.t := BinaryWriter.mk [x0a; x0b; x0c].

End Sample.

(* ------------------------------------------------------------------ *)
(** * Properties *)

(** ** Buffers and encodings *)

Lemma to_Z_range (b : byte) : 0 <= Buf.to_Z b < 256.
Proof.
  unfold Buf.to_Z. pose proof (Byte.to_N_bounded b) as Hb. lia.
Qed.

Lemma to_Z_of_Z (z : Z) : Buf.to_Z (Buf.of_Z z) = z mod 256.
Proof.
  unfold Buf.to_Z, Buf.of_Z.
  pose proof (Z.mod_pos_bound z 256 ltac:(lia)) as Hm.
  destruct (Byte.of_N (Z.to_N (z mod 256))) as [b |] eqn:E.
  - apply Byte.to_of_N in E. rewrite E. apply Z2N.id. lia.
  - apply Byte.of_N_None_iff in E. lia.
Qed.

Lemma of_Z_to_Z (b : byte) : Buf.of_Z (Buf.to_Z b) = b.
Proof.
  unfold Buf.of_Z. pose proof (to_Z_range b) as Hb.
  rewrite Z.mod_small by exact Hb.
  unfold Buf.to_Z. rewrite N2Z.id, Byte.of_to_N. reflexivity.
Qed.

Lemma of_Z_mod (z : Z) : Buf.of_Z (z mod 256) = Buf.of_Z z.
Proof. unfold Buf.of_Z. rewrite Z.mod_mod by lia. reflexivity. Qed.

Lemma equals_spec (a b : bytes) : Buf.equals a b = true <-> a = b.
Proof.
  revert b. induction a as [| x a IH]; intros [| y b]; cbn;
    try (split; [discriminate | discriminate]); try tauto.
  rewrite andb_true_iff, IH. split.
  - intros [Hx ->]. apply Byte.byte_dec_bl in Hx. now subst.
  - intros [= -> ->]. split; [apply Byte.byte_dec_lb |]; reflexivity.
Qed.

Lemma length_le_bytes (n : nat) : forall z, List.length (Buf.le_bytes n z) = n.
Proof.
  induction n as [| n IH]; intro z; cbn; [| rewrite IH]; reflexivity.
Qed.

Lemma le_value_le_bytes (n : nat) :
  forall z, Buf.le_value (Buf.le_bytes n z) = z mod 2 ^ (8 * Z.of_nat n).
Proof.
  induction n as [| n IH]; intro z.
  - cbn. now rewrite Z.mod_1_r.
  - cbn [Buf.le_bytes Buf.le_value].
    rewrite IH, to_Z_of_Z.
    change 255 with (Z.ones 8). rewrite Z.land_ones by lia.
    rewrite Z.shiftr_div_pow2 by lia.
    change (2 ^ 8) with 256. rewrite Z.mod_mod by lia.
    replace (8 * Z.of_nat (S n)) with (8 + 8 * Z.of_nat n) by lia.
    rewrite Z.pow_add_r by lia. change (2 ^ 8) with 256.
    rewrite Z.rem_mul_r by lia. reflexivity.
Qed.

Lemma le_value_le_bytes_small (n : nat) (z : Z) :
  0 <= z < 2 ^ (8 * Z.of_nat n) -> Buf.le_value (Buf.le_bytes n z) = z.
Proof. intro H. rewrite le_value_le_bytes. now apply Z.mod_small. Qed.

Lemma le_signed_le_bytes (n : nat) (z : Z) :
  (0 < n)%nat ->
  - 2 ^ (8 * Z.of_nat n - 1) <= z < 2 ^ (8 * Z.of_nat n - 1) ->
  Buf.le_signed (Buf.le_bytes n z) = z.
Proof.
  intros Hn Hz. unfold Buf.le_signed, Buf.len.
  rewrite length_le_bytes, le_value_le_bytes.
  set (w := 2 ^ (8 * Z.of_nat n)).
  assert (Hw : w = 2 * 2 ^ (8 * Z.of_nat n - 1)).
  { unfold w. rewrite <- Z.pow_succ_r by lia. f_equal. lia. }
  destruct (Z.ltb_spec z 0) as [Hneg | Hpos].
  - assert (E : z mod w = z + w).
    { symmetry. apply Z.mod_unique with (q := -1); lia. }
    rewrite E. destruct (Z.ltb_spec (2 * (z + w)) w); lia.
  - rewrite Z.mod_small by lia.
    destruct (Z.ltb_spec (2 * z) w); lia.
Qed.

Lemma slice_range (b : bytes) (i j : nat) :
  (i <= j)%nat -> Buf.slice b (Z.of_nat i) (Z.of_nat j) = range b i j.
Proof.
  intro Hij. unfold Buf.slice, range, Buf.clampIndex, Buf.len.
  destruct (Z.ltb_spec (Z.of_nat i) 0); [lia |].
  destruct (Z.ltb_spec (Z.of_nat j) 0); [lia |].
  destruct (Nat.le_gt_cases (List.length b) i) as [Hi | Hi].
  - rewrite (skipn_all2 b) by (rewrite (Z.min_r (Z.of_nat i)) by lia; lia).
    rewrite (skipn_all2 b) by lia. now rewrite !firstn_nil.
  - rewrite (Z.min_l (Z.of_nat i)) by lia. rewrite Nat2Z.id.
    destruct (Nat.le_gt_cases j (List.length b)) as [Hj | Hj].
    + rewrite Z.min_l by lia. f_equal. lia.
    + rewrite Z.min_r by lia.
      rewrite !firstn_all2; [reflexivity | |]; rewrite length_skipn; lia.
Qed.

Lemma sliceFrom_skipn (b : bytes) (i : nat) :
  Buf.sliceFrom b (Z.of_nat i) = skipn i b.
Proof.
  unfold Buf.sliceFrom, Buf.slice, Buf.clampIndex, Buf.len.
  destruct (Z.ltb_spec (Z.of_nat i) 0); [lia |].
  destruct (Z.ltb_spec (Z.of_nat (List.length b)) 0); [lia |].
  rewrite (Z.min_id).
  destruct (Nat.le_gt_cases (List.length b) i) as [Hi | Hi].
  - rewrite (skipn_all2 b) by (rewrite Z.min_r by lia; lia).
    rewrite (skipn_all2 b) by lia. now rewrite firstn_nil.
  - rewrite Z.min_l by lia. rewrite Nat2Z.id.
    apply firstn_all2. rewrite length_skipn. lia.
Qed.

Lemma range_app_l (a b : bytes) (j : nat) :
  j = List.length a -> range (a ++ b) 0 j = a.
Proof.
  intros ->. unfold range. cbn [skipn]. rewrite Nat.sub_0_r.
  rewrite firstn_app, Nat.sub_diag, firstn_all. cbn. apply app_nil_r.
Qed.

Lemma range_app_mid (a b c : bytes) (i j : nat) :
  i = List.length a -> j = (List.length a + List.length b)%nat ->
  range (a ++ b ++ c) i j = b.
Proof.
  intros -> ->. unfold range.
  rewrite skipn_app, skipn_all, Nat.sub_diag. cbn [skipn app].
  replace (List.length a + List.length b - List.length a)%nat
    with (List.length b) by lia.
  rewrite firstn_app, Nat.sub_diag, firstn_all. cbn. apply app_nil_r.
Qed.

Lemma skipn_app_exact (a b : bytes) (n : nat) :
  n = List.length a -> skipn n (a ++ b) = b.
Proof.
  intros ->. rewrite skipn_app, skipn_all, Nat.sub_diag. reflexivity.
Qed.

Lemma length_range (b : bytes) (i j : nat) :
  (j <= List.length b)%nat -> List.length (range b i j) = (j - i)%nat.
Proof.
  intro Hj. unfold range. rewrite length_firstn, length_skipn. lia.
Qed.

(** ** Sequence generator *)

Lemma getSeqNo_content (s : MTProtoState) :
  _getSeqNo s true = (_sequence s * 2 + 1, set_sequence s (_sequence s + 1)).
Proof. reflexivity. Qed.

Lemma getSeqNo_non_content (s : MTProtoState) :
  _getSeqNo s false = (_sequence s * 2, s).
Proof. reflexivity. Qed.

(** C1 (as stated): from a fresh state the four calls with flags
    [true, true, false, true] do not return [1, 3, 4, 7]. *)
Lemma seqNo_alternation_not_7 :
  fst (runSeqNo (constructor None true 0) [true; true; false; true])
  <> [1; 3; 4; 7].
Proof. vm_compute. discriminate. Qed.

(** C1 (amended): from any state whose counter is 0 the four calls with
    flags [true, true, false, true] return [1, 3, 4, 5]; a content-related
    call returns [sequence*2+1] and increments the counter, a non-content
    call returns [sequence*2] and leaves the state as it is. *)
Theorem seqNo_alternation (s : MTProtoState) (H0 : _sequence s = 0) :
  fst (runSeqNo s [true; true; false; true]) = [1; 3; 4; 5]
  /\ (forall t, fst (_getSeqNo t true) = _sequence t * 2 + 1
                /\ _sequence (snd (_getSeqNo t true)) = _sequence t + 1)
  /\ (forall t, _getSeqNo t false = (_sequence t * 2, t)).
Proof.
  split; [| split].
  - cbn. rewrite H0. reflexivity.
  - intro t. split; reflexivity.
  - intro t. reflexivity.
Qed.

Lemma seqNo_alternation_witness :
  _sequence (constructor None true 7) = 0
  /\ fst (runSeqNo (constructor None true 7) [true; true; false; true])
     = [1; 3; 4; 5].
Proof.
  split; [reflexivity |].
  exact (proj1 (seqNo_alternation (constructor None true 7) eq_refl)).
Defined.

(** ** Message-ID generator *)

Lemma candidateMsgId_aligned (s : MTProtoState) (c : Clock) :
  candidateMsgId s c mod 4 = 0.
Proof.
  unfold candidateMsgId.
  replace 32 with (30 + 2) by reflexivity.
  rewrite <- Z.shiftl_shiftl by lia.
  rewrite <- Z.shiftl_lor.
  rewrite Z.shiftl_mul_pow2 by lia.
  change (2 ^ 2) with 4.
  apply Z.mod_mul. lia.
Qed.

Lemma getNewMsgId_result (s : MTProtoState) (c : Clock) :
  fst (_getNewMsgId s c)
  = if candidateMsgId s c <=? _lastMsgId s
    then _lastMsgId s + 4 else candidateMsgId s c.
Proof.
  unfold _getNewMsgId. cbn.
  destruct (Z.geb_spec (_lastMsgId s) (candidateMsgId s c));
    destruct (Z.leb_spec (candidateMsgId s c) (_lastMsgId s)); lia.
Qed.

Lemma getNewMsgId_stored (s : MTProtoState) (c : Clock) :
  _lastMsgId (snd (_getNewMsgId s c)) = fst (_getNewMsgId s c).
Proof. reflexivity. Qed.

Lemma getNewMsgId_gt (s : MTProtoState) (c : Clock) :
  _lastMsgId s < fst (_getNewMsgId s c).
Proof.
  rewrite getNewMsgId_result.
  destruct (Z.leb_spec (candidateMsgId s c) (_lastMsgId s)); lia.
Qed.

Lemma getNewMsgId_step4 (s : MTProtoState) (c : Clock) :
  _lastMsgId s mod 4 = 0 ->
  _lastMsgId s + 4 <= fst (_getNewMsgId s c)
  /\ fst (_getNewMsgId s c) mod 4 = 0.
Proof.
  intro Hs. rewrite getNewMsgId_result.
  pose proof (candidateMsgId_aligned s c) as Hc.
  destruct (Z.leb_spec (candidateMsgId s c) (_lastMsgId s)).
  - split; [lia |].
    rewrite Z.add_mod, Hs by lia. reflexivity.
  - split; [| exact Hc].
    apply Z.mod_divide in Hs; [| lia].
    apply Z.mod_divide in Hc; [| lia].
    destruct Hs as [a Ha], Hc as [b Hb]. lia.
Qed.

Lemma runNewMsgId_all_gt (cs : list Clock) :
  forall s, Forall (fun r => _lastMsgId s < r) (fst (runNewMsgId s cs)).
Proof.
  induction cs as [| c cs IH]; intro s; cbn.
  - constructor.
  - destruct (runNewMsgId (set_lastMsgId s _) cs) as [rs s2] eqn:E.
    cbn. constructor.
    + apply (getNewMsgId_gt s c).
    + specialize (IH (snd (_getNewMsgId s c))).
      cbn in IH. rewrite E in IH. cbn in IH.
      eapply Forall_impl; [| exact IH].
      cbn. intros a Ha. pose proof (getNewMsgId_gt s c) as G. cbn in G. lia.
Qed.

(** C3: successive message IDs are strictly increasing whatever the clock
    shows; a candidate not above [lastMessageId] is replaced by
    [lastMessageId + 4]; the returned value is stored. *)
Theorem getNewMsgId_strictly_increasing (s : MTProtoState) (cs : list Clock) :
  StronglySorted Z.lt (fst (runNewMsgId s cs))
  /\ Forall (fun r => _lastMsgId s < r) (fst (runNewMsgId s cs))
  /\ (forall t c,
        fst (_getNewMsgId t c)
        = (if candidateMsgId t c <=? _lastMsgId t
           then _lastMsgId t + 4 else candidateMsgId t c)
        /\ _lastMsgId (snd (_getNewMsgId t c)) = fst (_getNewMsgId t c)).
Proof.
  split; [| split].
  - revert s. induction cs as [| c cs IH]; intro s; cbn.
    + constructor.
    + destruct (runNewMsgId (set_lastMsgId s _) cs) as [rs s2] eqn:E.
      cbn. constructor.
      * specialize (IH (snd (_getNewMsgId s c))).
        cbn in IH. rewrite E in IH. exact IH.
      * pose proof (runNewMsgId_all_gt cs (snd (_getNewMsgId s c))) as G.
        cbn in G. rewrite E in G. exact G.
  - apply runNewMsgId_all_gt.
  - intros t c. split.
    + apply getNewMsgId_result.
    + apply getNewMsgId_stored.
Qed.

(** ** Time offset *)

Lemma updateTimeOffset_unfold (s : MTProtoState) (c1 c2 : Clock) (m : Z) :
  updateTimeOffset s c1 c2 m
  = let s1 := snd (_getNewMsgId s c1) in
    let r := Z.shiftr m 32 - seconds c2 in
    (r, if r =? timeOffset s
        then set_timeOffset s1 r
        else set_lastMsgId (set_timeOffset s1 r) 0).
Proof.
  unfold updateTimeOffset, _getNewMsgId.
  generalize (Z.shiftr m 32), (candidateMsgId s c1). intros cm cand. cbn.
  destruct (Z.eqb_spec (cm - seconds c2) (timeOffset s)); reflexivity.
Qed.

(** C5: [updateTimeOffset] returns [(correctMsgId >> 32) - floor(now)],
    stores it as the offset, and resets [lastMessageId] to zero exactly when
    the offset changed; after such a reset the next generated ID is the
    clock-derived candidate itself whenever that is positive, whatever IDs
    were handed out before. *)
Theorem updateTimeOffset_spec (s : MTProtoState) (c1 c2 : Clock) (m : Z)
  (Hlast : 0 <= _lastMsgId s) :
  let r := fst (updateTimeOffset s c1 c2 m) in
  let s' := snd (updateTimeOffset s c1 c2 m) in
  r = Z.shiftr m 32 - seconds c2
  /\ timeOffset s' = r
  /\ (_lastMsgId s' = 0 <-> r <> timeOffset s)
  /\ (r <> timeOffset s ->
      forall c, 0 < candidateMsgId s' c ->
                fst (_getNewMsgId s' c) = candidateMsgId s' c).
Proof.
  rewrite updateTimeOffset_unfold. cbv zeta. cbn [fst snd].
  pose proof (getNewMsgId_gt s c1) as Hgt.
  destruct (Z.eqb_spec (Z.shiftr m 32 - seconds c2) (timeOffset s)) as [E | E].
  - repeat split; try reflexivity.
    + cbn in *. lia.
    + intro K. contradiction.
    + intro K. contradiction.
  - repeat split; try reflexivity.
    + intros _. exact E.
    + intros _ c Hc. rewrite getNewMsgId_result.
      destruct (Z.leb_spec (candidateMsgId
        (set_lastMsgId (set_timeOffset (snd (_getNewMsgId s c1))
           (Z.shiftr m 32 - seconds c2)) 0) c)
        (_lastMsgId (set_lastMsgId (set_timeOffset (snd (_getNewMsgId s c1))
           (Z.shiftr m 32 - seconds c2)) 0))) as [L | L];
        [cbn in L; cbn in Hc; lia | reflexivity].
Qed.

Lemma updateTimeOffset_spec_witness :
  0 <= _lastMsgId (constructor None true 5)
  /\ fst (updateTimeOffset (constructor None true 5)
            (mkClock 1700000000 123000000) (mkClock 1700000000 123000000)
            (Z.shiftl 1700000060 32))
     = 60.
Proof.
  split; [cbn; lia |].
  exact (proj1 (updateTimeOffset_spec (constructor None true 5)
                  (mkClock 1700000000 123000000)
                  (mkClock 1700000000 123000000)
                  (Z.shiftl 1700000060 32) ltac:(cbn; lia))).
Defined.

(** ** Reachable states *)

Lemma length_recordMsgId (ids : list string) (x : string) :
  List.length (recordMsgId ids x)
  = if (500 <? List.length ids)%nat
    then List.length ids else S (List.length ids).
Proof.
  unfold recordMsgId, Helpers.push, Helpers.shift.
  rewrite Z.gtb_ltb.
  destruct (Z.ltb_spec 500 (Z.of_nat (List.length ids)));
    destruct (Nat.ltb_spec 500 (List.length ids)); try lia;
    rewrite length_app; cbn; [| lia].
  destruct ids; cbn in *; lia.
Qed.

Section StateEffects.
Context `{C : Collaborators}.

Lemma readMessage_state (s : MTProtoState) (pt : bytes) :
  snd (readMessage s pt) = s
  \/ exists x, snd (readMessage s pt)
               = set_msgIds s (recordMsgId (msgIds s) x).
Proof.
  unfold readMessage.
  destruct (readHeader pt) as [[m r3] |]; [| now left].
  destruct (Helpers.includes _ _ && securityChecks s); [now left |].
  right. exists (Helpers.toString m).
  destruct (BinaryReader.readInt r3) as [[q r4] |]; [| reflexivity].
  destruct (BinaryReader.readInt r4) as [[l r5] |]; [| reflexivity].
  destruct (tgReadObject r5); reflexivity.
Qed.

Lemma decryptMessageData_state (s : MTProtoState) (body : bytes) :
  snd (decryptMessageData s body) = s
  \/ exists x, snd (decryptMessageData s body)
               = set_msgIds s (recordMsgId (msgIds s) x).
Proof.
  unfold decryptMessageData.
  destruct (decryptBody s body); [apply readMessage_state | now left].
Qed.

Lemma writeDataAsMessage_state s c w d f a :
  snd (writeDataAsMessage s c w d f a)
  = snd (_getSeqNo (snd (_getNewMsgId s c)) f).
Proof.
  unfold writeDataAsMessage.
  destruct (_getNewMsgId s c) as [m s1]. cbn [snd].
  destruct (_getSeqNo s1 f) as [q s2]. cbn [snd].
  destruct (envelope _ _ _); reflexivity.
Qed.

Lemma getNewMsgId_inv (s : MTProtoState) (c : Clock) :
  state_inv s -> state_inv (snd (_getNewMsgId s c)).
Proof.
  intros (Ha & Hp & Hl).
  pose proof (getNewMsgId_step4 s c Ha) as [H4 Hm].
  unfold state_inv. rewrite getNewMsgId_stored.
  repeat split; [exact Hm | lia | exact Hl].
Qed.

Lemma getSeqNo_inv (s : MTProtoState) (f : bool) :
  state_inv s -> state_inv (snd (_getSeqNo s f)).
Proof. destruct f; intro H; exact H. Qed.

Lemma reachable_inv (s : MTProtoState) : reachable s -> state_inv s.
Proof.
  induction 1 as [k checks sid | s sid _ IH | s v _ IH | s c _ IH
                 | s f _ IH | s c1 c2 m _ IH | s c w d f a _ IH
                 | s body _ IH].
  - repeat split; cbn; lia.
  - repeat split; cbn; lia.
  - exact IH.
  - now apply getNewMsgId_inv.
  - now apply getSeqNo_inv.
  - rewrite updateTimeOffset_unfold. cbv zeta. cbn [snd].
    pose proof (getNewMsgId_inv s c1 IH) as (Ha & Hp & Hl).
    destruct (_ =? _); repeat split; cbn in *; try assumption; lia.
  - rewrite writeDataAsMessage_state.
    now apply getSeqNo_inv, getNewMsgId_inv.
  - destruct IH as (Ha & Hp & Hl).
    destruct (decryptMessageData_state s body) as [-> | [x ->]].
    + repeat split; assumption.
    + repeat split; cbn; try assumption.
      rewrite length_recordMsgId.
      destruct (Nat.ltb_spec 500 (List.length (msgIds s))); lia.
Qed.

(** C10: [updateTimeOffset] runs the message-ID generator before anything
    else: its final state is built on the state that generator leaves. So a
    call that leaves the offset as it was still moves [lastMessageId]: to
    the ID it generated and dropped, at least 4 above the previous value,
    not back to it and not to zero. *)
Theorem updateTimeOffset_same_offset_advances :
  (forall (s : MTProtoState) (c1 c2 : Clock) (m : Z),
      snd (updateTimeOffset s c1 c2 m)
      = let s1 := snd (_getNewMsgId s c1) in
        let r := Z.shiftr m 32 - seconds c2 in
        if r =? timeOffset s
        then set_timeOffset s1 r
        else set_lastMsgId (set_timeOffset s1 r) 0)
  /\ (forall (s : MTProtoState) (c1 c2 : Clock) (m : Z),
         reachable s ->
         Z.shiftr m 32 - seconds c2 = timeOffset s ->
         _lastMsgId (snd (updateTimeOffset s c1 c2 m))
         = fst (_getNewMsgId s c1)
         /\ _lastMsgId s + 4 <= _lastMsgId (snd (updateTimeOffset s c1 c2 m))
         /\ _lastMsgId (snd (updateTimeOffset s c1 c2 m)) <> 0
         /\ timeOffset (snd (updateTimeOffset s c1 c2 m)) = timeOffset s).
Proof.
  split.
  - intros s c1 c2 m. rewrite updateTimeOffset_unfold. reflexivity.
  - intros s c1 c2 m Hs Hsame.
    rewrite updateTimeOffset_unfold. cbv zeta. cbn [snd].
    rewrite Hsame, Z.eqb_refl.
    destruct (reachable_inv s Hs) as (Ha & Hp & _).
    pose proof (getNewMsgId_step4 s c1 Ha) as [H4 _].
    cbn in *. repeat split; lia.
Qed.

End StateEffects.

Lemma updateTimeOffset_same_offset_advances_witness :
  reachable (C := Demo.collaborators) (constructor None true 5)
  /\ 0 + 4 <= _lastMsgId
       (snd (updateTimeOffset (constructor None true 5)
               (mkClock 1700000000 123000000) (mkClock 1700000000 123000000)
               (Z.shiftl 1700000000 32))).
Proof.
  split; [apply reach_new |].
  exact (proj1 (proj2 (proj2 (updateTimeOffset_same_offset_advances
    (C := Demo.collaborators)) (constructor None true 5)
    (mkClock 1700000000 123000000) (mkClock 1700000000 123000000)
    (Z.shiftl 1700000000 32) (reach_new None true 5) eq_refl))).
Defined.

(** ** Key deriver *)

Lemma slice_rangeZ (b : bytes) (i j : Z) :
  0 <= i <= j -> Buf.slice b i j = range b (Z.to_nat i) (Z.to_nat j).
Proof.
  intro H. rewrite <- (Z2Nat.id i) at 1 by lia.
  rewrite <- (Z2Nat.id j) at 1 by lia.
  apply slice_range. lia.
Qed.

Lemma calcKey_eq_spec `{C : Collaborators} (masterKey messageKey : bytes)
  (client : bool) :
  _calcKey masterKey messageKey client
  = calcKey_spec masterKey messageKey client.
Proof.
  unfold _calcKey, calcKey_spec, Buf.concat.
  destruct client; cbv zeta; rewrite !slice_rangeZ by lia;
    cbn [List.concat]; rewrite !app_nil_r, <- ?app_assoc; reflexivity.
Qed.

(** C4: the key deriver is a function of the master key, the message key
    and the client flag alone, and computes the protocol's formula: with
    [x] 0 for the client and 8 otherwise, sha256a is the digest of the
    message key followed by masterKey[x : x+36], sha256b the digest of
    masterKey[x+40 : x+76] followed by the message key, and key and iv
    interleave bytes 0..8, 8..24 and 24..32 of the two. *)
Theorem calcKey_formula `{C : Collaborators} (masterKey messageKey : bytes)
  (client : bool) :
  let x := if client then 0%nat else 8%nat in
  let sha256a := sha256 (messageKey ++ range masterKey x (x + 36)) in
  let sha256b := sha256 (range masterKey (x + 40) (x + 76) ++ messageKey) in
  _calcKey masterKey messageKey client
  = calcKey_spec masterKey messageKey client
  /\ key (_calcKey masterKey messageKey client)
     = range sha256a 0 8 ++ range sha256b 8 24 ++ range sha256a 24 32
  /\ iv (_calcKey masterKey messageKey client)
     = range sha256b 0 8 ++ range sha256a 8 24 ++ range sha256b 24 32.
Proof.
  cbv zeta. rewrite calcKey_eq_spec. repeat split.
Qed.

Lemma calcKey_lengths `{C : Collaborators} (masterKey messageKey : bytes)
  (client : bool) :
  (forall b, List.length (sha256 b) = 32%nat) ->
  List.length (key (_calcKey masterKey messageKey client)) = 32%nat
  /\ List.length (iv (_calcKey masterKey messageKey client)) = 32%nat.
Proof.
  intro Hsha. rewrite calcKey_eq_spec. unfold calcKey_spec. cbn [key iv].
  rewrite !length_app, !length_range by (rewrite Hsha; lia).
  split; reflexivity.
Qed.

(** ** Encryption *)

Lemma length_generateRandomBytes (rnd : nat -> byte) (n : Z) :
  List.length (Helpers.generateRandomBytes rnd n) = Z.to_nat n.
Proof.
  unfold Helpers.generateRandomBytes. now rewrite length_map, length_seq.
Qed.

Lemma paddingLength_bounds (n : Z) :
  paddingLength n = (- (n + 12)) mod 16 + 12
  /\ 12 <= paddingLength n <= 27
  /\ (n + paddingLength n) mod 16 = 0.
Proof.
  unfold paddingLength, Helpers.mod_.
  pose proof (Z.mod_pos_bound (- (n + 12)) 16 ltac:(lia)) as Hb.
  repeat split; try lia.
  replace (n + ((- (n + 12)) mod 16 + 12))
    with ((n + 12) + (- (n + 12)) mod 16) by lia.
  rewrite Zplus_mod_idemp_r.
  replace (n + 12 + - (n + 12)) with 0 by lia. reflexivity.
Qed.

(** C6: with key, salt and session id available, [encryptMessageData]
    returns keyId (8 bytes), msgKey (16 bytes) and the ciphertext of
    salt, session id, input and padding; the padding has
    [((-(len+12)) mod 16) + 12] bytes, at least 12, and brings the
    plaintext to a multiple of 16; msgKey is bytes 8..24 of the digest of
    masterKey[88:120], plaintext and padding. *)
Theorem encryptMessageData_layout `{C : Collaborators}
  (s : MTProtoState) (rnd : nat -> byte) (data : bytes)
  (ak : AuthKey) (masterKey : bytes) (slt sid kid : Z)
  (Hsha : forall b, List.length (sha256 b) = 32%nat)
  (Hak : authKey s = Some ak) (Hkey : getKey ak = Some masterKey)
  (Hsalt : salt s = Some slt) (Hid : id s = Some sid)
  (Hkid : keyId ak = Some kid) :
  let pt := Buf.le_bytes 8 slt ++ Buf.le_bytes 8 sid ++ data in
  let padding :=
    Helpers.generateRandomBytes rnd (paddingLength (Buf.len pt)) in
  let msgKey :=
    range (sha256 (range masterKey 88 120 ++ pt ++ padding)) 8 24 in
  let ki := calcKey_spec masterKey msgKey true in
  let keyIdBytes := Helpers.readBufferFromBigInt kid 8 in
  encryptMessageData s rnd data
  = Ok (keyIdBytes ++ msgKey ++ encryptIge (key ki) (iv ki) (pt ++ padding))
  /\ List.length keyIdBytes = 8%nat
  /\ List.length msgKey = 16%nat
  /\ Buf.len padding = (- (Buf.len pt + 12)) mod 16 + 12
  /\ 12 <= Buf.len padding
  /\ (Buf.len pt + Buf.len padding) mod 16 = 0.
Proof.
  intros pt padding msgKey ki keyIdBytes.
  destruct (paddingLength_bounds (Buf.len pt)) as (Hp1 & Hp2 & Hp3).
  assert (Hlen : Buf.len padding = paddingLength (Buf.len pt)).
  { unfold padding, Buf.len at 1.
    rewrite length_generateRandomBytes. apply Z2Nat.id. lia. }
  split; [| split; [| split; [| split; [| split]]]].
  - unfold encryptMessageData.
    rewrite Hak, Hkey, Hsalt, Hid, Hkid. cbv zeta.
    rewrite calcKey_eq_spec.
    unfold Helpers.toSignedLittleBuffer, Buf.concat.
    rewrite !slice_rangeZ by lia.
    cbn [List.concat]. rewrite !app_nil_r, <- ?app_assoc.
    reflexivity.
  - apply length_le_bytes.
  - unfold msgKey. rewrite length_range by (rewrite Hsha; lia). reflexivity.
  - rewrite Hlen. exact Hp1.
  - rewrite Hlen. lia.
  - rewrite Hlen. exact Hp3.
Qed.

(** The digest of the three bytes "abc", as FIPS 180-4 gives it. *)
Lemma digest_abc :
  map Buf.to_Z (SHA256.digest [x61; x62; x63])
  = [0xba; 0x78; 0x16; 0xbf; 0x8f; 0x01; 0xcf; 0xea;
     0x41; 0x41; 0x40; 0xde; 0x5d; 0xae; 0x22; 0x23;
     0xb0; 0x03; 0x61; 0xa3; 0x96; 0x17; 0x7a; 0x9c;
     0xb4; 0x10; 0xff; 0x61; 0xf2; 0x00; 0x15; 0xad].
Proof. vm_compute. reflexivity. Qed.

Lemma digest_length (b : bytes) : List.length (SHA256.digest b) = 32%nat.
Proof.
  unfold SHA256.digest.
  destruct (SHA256.blocks _ _ _). reflexivity.
Qed.

Lemma encryptMessageData_layout_witness :
  authKey (Demo.state true) = Some Demo.key
  /\ getKey Demo.key = Some Demo.masterKey
  /\ 12 <= Buf.len
             (Helpers.generateRandomBytes (fun _ => x55)
                (paddingLength
                   (Buf.len (Buf.le_bytes 8 77
                             ++ Buf.le_bytes 8 0x0102030405060708
                             ++ [x01; x02; x03])))).
Proof.
  split; [reflexivity | split; [reflexivity |]].
  exact (proj1 (proj2 (proj2 (proj2 (proj2
    (encryptMessageData_layout (C := Demo.collaborators)
       (Demo.state true) (fun _ => x55) [x01; x02; x03]
       Demo.key Demo.masterKey 77 0x0102030405060708 0x1122334455667788
       digest_length eq_refl eq_refl eq_refl eq_refl eq_refl)))))).
Defined.

(** ** Decryption: the message-key check *)

Lemma sliceFrom_skipnZ (b : bytes) (i : Z) :
  0 <= i -> Buf.sliceFrom b i = skipn (Z.to_nat i) b.
Proof.
  intro H. rewrite <- (Z2Nat.id i) at 1 by lia. apply sliceFrom_skipn.
Qed.

Section Decrypt.
Context `{C : Collaborators}.

Lemma decryptBody_checked (s : MTProtoState) (body : bytes)
  (ak : AuthKey) (kid : Z) (masterKey : bytes) :
  authKey s = Some ak -> 8 <= Buf.len body -> keyId ak = Some kid ->
  Helpers.readBigIntFromBuffer (range body 0 8) = kid ->
  getKey ak = Some masterKey ->
  decryptBody s body
  = if Buf.equals (range body 8 24) (expectedMsgKey masterKey body)
    then Ok (framePlaintext masterKey body)
    else Err msgKeyMismatch.
Proof.
  intros Hak Hlen Hkid Hmatch Hkey.
  unfold decryptBody. rewrite Hak, Hkid, Hkey.
  destruct (Z.ltb_spec (Buf.len body) 8); [lia |].
  cbv zeta. rewrite calcKey_eq_spec.
  rewrite !slice_rangeZ by lia. rewrite sliceFrom_skipnZ by lia.
  change (Z.to_nat 0) with 0%nat. change (Z.to_nat 8) with 8%nat.
  change (Z.to_nat 24) with 24%nat. change (Z.to_nat 96) with 96%nat.
  change (Z.to_nat (96 + 32)) with 128%nat.
  rewrite Hmatch, Z.eqb_refl. cbn [negb].
  unfold Buf.concat. cbn [List.concat]. rewrite app_nil_r.
  fold (framePlaintext masterKey body).
  fold (expectedMsgKey masterKey body).
  destruct (Buf.equals _ _); reflexivity.
Qed.

Lemma decryptBody_authKey (s s' : MTProtoState) (body : bytes) :
  authKey s' = authKey s -> decryptBody s' body = decryptBody s body.
Proof. intro E. unfold decryptBody. rewrite E. reflexivity. Qed.

Lemma readMessage_not_mismatch (s : MTProtoState) (pt : bytes) :
  fst (readMessage s pt) <> Err msgKeyMismatch.
Proof.
  unfold readMessage.
  destruct (readHeader pt) as [[m r3] |]; [| discriminate].
  destruct (Helpers.includes _ _ && securityChecks s); [discriminate |].
  destruct (BinaryReader.readInt r3) as [[q r4] |]; [| discriminate].
  destruct (BinaryReader.readInt r4) as [[l r5] |]; [| discriminate].
  destruct (tgReadObject r5); discriminate.
Qed.

(** C7: once the frame carries the right key identifier, the call fails
    with the message-key error exactly when bytes 8..24 of
    SHA256(masterKey[96:128] || plaintext) differ from bytes 8..24 of the
    frame. The failure leaves the state as it was and does not depend on
    the replay window, the security switch or the shape of the plaintext;
    the plaintext is read only when the keys agree. *)
Theorem decrypt_msgKey_check (s : MTProtoState) (body : bytes)
  (ak : AuthKey) (kid : Z) (masterKey : bytes)
  (Hak : authKey s = Some ak) (Hlen : 8 <= Buf.len body)
  (Hkid : keyId ak = Some kid)
  (Hmatch : Helpers.readBigIntFromBuffer (range body 0 8) = kid)
  (Hkey : getKey ak = Some masterKey) :
  let msgKey := range body 8 24 in
  let ki := calcKey_spec masterKey msgKey false in
  let pt := decryptIge (key ki) (iv ki) (skipn 24 body) in
  let expected := range (sha256 (range masterKey 96 128 ++ pt)) 8 24 in
  (fst (decryptMessageData s body) = Err msgKeyMismatch
   <-> expected <> msgKey)
  /\ (expected <> msgKey ->
      forall s', authKey s' = authKey s ->
                 decryptMessageData s' body = (Err msgKeyMismatch, s'))
  /\ (expected = msgKey ->
      forall s', authKey s' = authKey s ->
                 decryptMessageData s' body = readMessage s' pt).
Proof.
  intros msgKey ki pt expected.
  assert (Hbody : forall s', authKey s' = authKey s ->
            decryptMessageData s' body
            = if Buf.equals msgKey expected
              then readMessage s' pt else (Err msgKeyMismatch, s')).
  { intros s' E. unfold decryptMessageData.
    rewrite (decryptBody_authKey s s' body E).
    rewrite (decryptBody_checked s body ak kid masterKey) by assumption.
    fold msgKey. change (expectedMsgKey masterKey body) with expected.
    change (framePlaintext masterKey body) with pt.
    destruct (Buf.equals msgKey expected); reflexivity. }
  split; [| split].
  - rewrite (Hbody s eq_refl).
    destruct (Buf.equals msgKey expected) eqn:E.
    + apply equals_spec in E. split.
      * intro K. exfalso. exact (readMessage_not_mismatch s pt K).
      * intro K. congruence.
    + split; [| reflexivity].
      intros _ K. symmetry in K. apply equals_spec in K. congruence.
  - intros Hne s' E. rewrite (Hbody s' E).
    destruct (Buf.equals msgKey expected) eqn:E'; [| reflexivity].
    apply equals_spec in E'. congruence.
  - intros He s' E. rewrite (Hbody s' E).
    destruct (Buf.equals msgKey expected) eqn:E'; [reflexivity |].
    symmetry in He. apply equals_spec in He. congruence.
Qed.

End Decrypt.

(** ** Replay window *)

Lemma toString_inj (a b : Z) : Helpers.toString a = Helpers.toString b -> a = b.
Proof.
  unfold Helpers.toString. intro E.
  assert (N : forall z, NilZero.int_of_string
                          (NilZero.string_of_int (Z.to_int z))
                        = Some (Z.to_int z)).
  { intro z. apply NilZero.isi; destruct z; cbn; try discriminate;
      intros [= K]; exact (DecimalPos.Unsigned.to_uint_nonnil _ K). }
  pose proof (N a) as Na. rewrite E, N in Na.
  injection Na as Na.
  rewrite <- (DecimalZ.of_to a), <- (DecimalZ.of_to b). now f_equal.
Qed.

Lemma includes_In (l : list string) (x : string) :
  Helpers.includes l x = true <-> In x l.
Proof.
  unfold Helpers.includes. rewrite existsb_exists. split.
  - intros (y & Hy & E). apply String.eqb_eq in E. now subst.
  - intro H. exists x. split; [exact H | apply String.eqb_refl].
Qed.

Lemma recordMsgId_unfold (ids : list string) (x : string) :
  recordMsgId ids x
  = (if (500 <? List.length ids)%nat then tl ids else ids) ++ [x].
Proof.
  unfold recordMsgId, Helpers.push, Helpers.shift.
  rewrite Z.gtb_ltb.
  destruct (Z.ltb_spec 500 (Z.of_nat (List.length ids)));
    destruct (Nat.ltb_spec 500 (List.length ids)); try lia; reflexivity.
Qed.

Lemma includes_recordMsgId (ids : list string) (x : string) :
  Helpers.includes (recordMsgId ids x) x = true.
Proof.
  apply includes_In. rewrite recordMsgId_unfold.
  apply in_or_app. right. now left.
Qed.

Lemma fold_recordMsgId_small (l : list string) :
  (List.length l <= 501)%nat -> fold_left recordMsgId l [] = l.
Proof.
  induction l as [| x l IH] using rev_ind; intro Hl; [reflexivity |].
  rewrite length_app in Hl. cbn in Hl.
  rewrite fold_left_app. cbn [fold_left]. rewrite IH by lia.
  rewrite recordMsgId_unfold.
  destruct (Nat.ltb_spec 500 (List.length l)); [lia | reflexivity].
Qed.

Section Replay.
Context `{C : Collaborators}.

Lemma readMessage_header (s : MTProtoState) (pt : bytes) (m : Z)
  (r3 : BinaryReader.t) :
  readHeader pt = Some (m, r3) ->
  Helpers.includes (msgIds s) (Helpers.toString m) && securityChecks s
  = false ->
  readMessage s pt
  = let s1 := set_msgIds s (recordMsgId (msgIds s) (Helpers.toString m)) in
    match BinaryReader.readInt r3 with
    | None => (Err RangeError, s1)
    | Some (q, r4) =>
        match BinaryReader.readInt r4 with
        | None => (Err RangeError, s1)
        | Some (_, r5) =>
            match tgReadObject r5 with
            | None => (Err DecodeError, s1)
            | Some o => (Ok (mkTLMessage _ m q o), s1)
            end
        end
    end.
Proof.
  intros Hh Hf. unfold readMessage. rewrite Hh, Hf. reflexivity.
Qed.

Lemma readMessage_Ok (s : MTProtoState) (pt : bytes) (msg : TLMessage) :
  fst (readMessage s pt) = Ok msg ->
  exists r3 q r4 l r5,
    readHeader pt = Some (msgId msg, r3)
    /\ Helpers.includes (msgIds s) (Helpers.toString (msgId msg))
       && securityChecks s = false
    /\ BinaryReader.readInt r3 = Some (q, r4)
    /\ BinaryReader.readInt r4 = Some (l, r5)
    /\ tgReadObject r5 = Some (obj msg)
    /\ seqNo msg = q
    /\ snd (readMessage s pt)
       = set_msgIds s
           (recordMsgId (msgIds s) (Helpers.toString (msgId msg))).
Proof.
  unfold readMessage.
  destruct (readHeader pt) as [[m r3] |]; [| discriminate].
  destruct (Helpers.includes _ _ && securityChecks s) eqn:Hf;
    [discriminate |].
  destruct (BinaryReader.readInt r3) as [[q r4] |] eqn:Hq; [| discriminate].
  destruct (BinaryReader.readInt r4) as [[l r5] |] eqn:Hl; [| discriminate].
  destruct (tgReadObject r5) as [o |] eqn:Ho; [| discriminate].
  cbn [fst snd]. intros [= <-]. cbn [msgId seqNo obj].
  exists r3, q, r4, l, r5. rewrite Hf. repeat split; assumption.
Qed.

Lemma decryptMessageData_Ok (s : MTProtoState) (body : bytes)
  (msg : TLMessage) :
  fst (decryptMessageData s body) = Ok msg ->
  exists pt, decryptBody s body = Ok pt
             /\ decryptMessageData s body = readMessage s pt.
Proof.
  unfold decryptMessageData.
  destruct (decryptBody s body) as [pt | e]; [| discriminate].
  intros _. exists pt. split; reflexivity.
Qed.

Lemma decryptMessageData_records (s : MTProtoState) (body : bytes)
  (msg : TLMessage) :
  fst (decryptMessageData s body) = Ok msg ->
  msgIds (snd (decryptMessageData s body))
  = recordMsgId (msgIds s) (Helpers.toString (msgId msg)).
Proof.
  intro H. destruct (decryptMessageData_Ok s body msg H) as (pt & _ & E).
  rewrite E in *.
  destruct (readMessage_Ok s pt msg H) as (? & ? & ? & ? & ? & _ & _ & _ & _ & _ & _ & ->).
  reflexivity.
Qed.


End Replay.

Section ReplayBound.
Context `{C : Collaborators}.

Lemma decryptEach_reachable (bodies : list bytes) :
  forall s, reachable s -> reachable (snd (decryptEach s bodies)).
Proof.
  induction bodies as [| b bs IH]; intros s Hs; [exact Hs |].
  cbn [decryptEach].
  pose proof (reach_decrypt s b Hs) as H1.
  destruct (decryptMessageData s b) as [r s1]. cbn [snd] in H1.
  specialize (IH s1 H1).
  destruct (decryptEach s1 bs) as [rs s2]. exact IH.
Qed.

End ReplayBound.

(** ** Decryption of a frame built by the remote side *)

Lemma read_app (a r : bytes) (n : nat) :
  List.length a = n -> BinaryReader.read (a ++ r) n = Some (a, r).
Proof.
  intros <-. unfold BinaryReader.read.
  rewrite length_app.
  destruct (Nat.leb_spec (List.length a) (List.length a + List.length r));
    [| lia].
  rewrite firstn_app, Nat.sub_diag, firstn_all, skipn_app, skipn_all,
    Nat.sub_diag.
  cbn. now rewrite app_nil_r.
Qed.

Lemma readLong_app (a r : bytes) :
  List.length a = 8%nat ->
  BinaryReader.readLong (a ++ r) = Some (Buf.le_signed a, r).
Proof.
  intro H. unfold BinaryReader.readLong. now rewrite (read_app a r 8 H).
Qed.

Lemma readInt_app (a r : bytes) :
  List.length a = 4%nat ->
  BinaryReader.readInt (a ++ r) = Some (Buf.le_signed a, r).
Proof.
  intro H. unfold BinaryReader.readInt. now rewrite (read_app a r 4 H).
Qed.

Lemma Ok_inj {A : Type} (a b : A) : Ok a = Ok b -> a = b.
Proof.
  intro E.
  exact (f_equal (fun r => match r with Ok x => x | Err _ => a end) E).
Qed.

Lemma envelope_Ok (m q : Z) (body P : bytes) :
  envelope m q body = Ok P ->
  - 2 ^ 31 <= q < 2 ^ 31
  /\ P = Buf.le_bytes 8 m ++ Buf.le_bytes 4 q
         ++ Buf.le_bytes 4 (Buf.len body) ++ body.
Proof.
  unfold envelope, writeInt32LE.
  destruct (Z.leb_spec (- 2 ^ 31) q); [| discriminate].
  destruct (Z.ltb_spec q (2 ^ 31)); [| discriminate].
  cbn [andb].
  destruct ((- 2 ^ 31 <=? Buf.len body) && (Buf.len body <? 2 ^ 31));
    [| discriminate].
  intro E. apply Ok_inj in E. subst P. split; [lia |].
  unfold Buf.concat, Helpers.toSignedLittleBuffer. cbn [List.concat].
  now rewrite !app_nil_r, <- !app_assoc.
Qed.

Section RemoteFrame.
Context `{C : Collaborators}.
Hypothesis sha256_length : forall b, List.length (sha256 b) = 32%nat.
Hypothesis ige_inverse : forall k i p, decryptIge k i (encryptIge k i p) = p.

Lemma decryptBody_remoteFrame (s : MTProtoState) (ak : AuthKey)
  (masterKey : bytes) (kid : Z) (pt : bytes) :
  authKey s = Some ak -> getKey ak = Some masterKey ->
  keyId ak = Some kid -> 0 <= kid < 2 ^ 64 ->
  decryptBody s (remoteFrame kid masterKey pt) = Ok pt.
Proof.
  intros Hak Hkey Hkid Hrange.
  set (msgKey := range (sha256 (range masterKey 96 128 ++ pt)) 8 24).
  assert (Hmk : List.length msgKey = 16%nat).
  { unfold msgKey. rewrite length_range by (rewrite sha256_length; lia).
    reflexivity. }
  assert (H8 : List.length (Buf.le_bytes 8 kid) = 8%nat)
    by apply length_le_bytes.
  assert (E1 : range (remoteFrame kid masterKey pt) 0 8 = Buf.le_bytes 8 kid).
  { unfold remoteFrame. apply range_app_l. now rewrite H8. }
  assert (E2 : range (remoteFrame kid masterKey pt) 8 24 = msgKey).
  { unfold remoteFrame. apply range_app_mid; [now rewrite H8 |].
    fold msgKey. now rewrite H8, Hmk. }
  assert (E3 : skipn 24 (remoteFrame kid masterKey pt)
               = encryptIge (key (calcKey_spec masterKey msgKey false))
                            (iv (calcKey_spec masterKey msgKey false)) pt).
  { unfold remoteFrame. fold msgKey. rewrite calcKey_eq_spec.
    rewrite app_assoc. apply skipn_app_exact.
    now rewrite length_app, H8, Hmk. }
  assert (E4 : framePlaintext masterKey (remoteFrame kid masterKey pt) = pt).
  { unfold framePlaintext. rewrite E2, E3. apply ige_inverse. }
  rewrite (decryptBody_checked s _ ak kid masterKey Hak); try assumption.
  - unfold expectedMsgKey. rewrite E2, E4. fold msgKey.
    now rewrite (proj2 (equals_spec msgKey msgKey) eq_refl).
  - unfold Buf.len, remoteFrame. rewrite !length_app, H8. lia.
  - rewrite E1. unfold Helpers.readBigIntFromBuffer.
    apply le_value_le_bytes_small. exact Hrange.
Qed.

Lemma decrypt_remoteFrame_flat (s : MTProtoState) (ak : AuthKey)
  (masterKey : bytes) (kid : Z) (saltB sidB qB lB rest : bytes) (m : Z)
  (o : TLObject) :
  authKey s = Some ak -> getKey ak = Some masterKey ->
  keyId ak = Some kid -> 0 <= kid < 2 ^ 64 ->
  List.length saltB = 8%nat -> List.length sidB = 8%nat ->
  List.length qB = 4%nat -> List.length lB = 4%nat ->
  - 2 ^ 63 <= m < 2 ^ 63 ->
  tgReadObject rest = Some o ->
  Helpers.includes (msgIds s) (Helpers.toString m) && securityChecks s
  = false ->
  decryptMessageData s
    (remoteFrame kid masterKey
       (saltB ++ sidB ++ Buf.le_bytes 8 m ++ qB ++ lB ++ rest))
  = (Ok (mkTLMessage _ m (Buf.le_signed qB) o),
     set_msgIds s (recordMsgId (msgIds s) (Helpers.toString m))).
Proof.
  intros Hak Hkey Hkid Hrange Hsalt Hsid Hq Hl Hm Ho Hfresh.
  unfold decryptMessageData.
  rewrite (decryptBody_remoteFrame s ak masterKey kid _ Hak Hkey Hkid Hrange).
  assert (Hh : readHeader
                 (saltB ++ sidB ++ Buf.le_bytes 8 m ++ qB ++ lB ++ rest)
               = Some (m, qB ++ lB ++ rest)).
  { unfold readHeader.
    rewrite (readLong_app saltB _ Hsalt), (readLong_app sidB _ Hsid).
    rewrite readLong_app by apply length_le_bytes.
    rewrite le_signed_le_bytes; [reflexivity | lia |].
    change (8 * Z.of_nat 8 - 1) with 63. exact Hm. }
  rewrite (readMessage_header s _ m _ Hh Hfresh). cbv zeta.
  rewrite (readInt_app qB _ Hq), (readInt_app lB _ Hl), Ho.
  reflexivity.
Qed.

(** C9 (amended): [decryptMessageData] inverts the encryption of the remote
    side. For a framed payload P (message ID, sequence number, body length,
    body), a frame that carries salt, session id, P and padding under the
    message key SHA256(masterKey[96:128] || plaintext)[8:24] and the cipher
    key derived with the flag off decrypts to the record of P's message ID,
    P's sequence number and the object decoded from the body, the padding
    being left unread; this needs the cipher's decrypt to invert its
    encrypt and the message ID not to be rejected as a duplicate. *)
Theorem decrypt_inverts_remote_encrypt (s : MTProtoState) (ak : AuthKey)
  (masterKey : bytes) (kid : Z) (saltB sidB : bytes) (m q : Z)
  (body padding P : bytes) (o : TLObject)
  (Hak : authKey s = Some ak) (Hkey : getKey ak = Some masterKey)
  (Hkid : keyId ak = Some kid) (Hrange : 0 <= kid < 2 ^ 64)
  (Hsalt : List.length saltB = 8%nat) (Hsid : List.length sidB = 8%nat)
  (Hm : - 2 ^ 63 <= m < 2 ^ 63)
  (HP : envelope m q body = Ok P)
  (Hobj : tgReadObject (body ++ padding) = Some o)
  (Hfresh : Helpers.includes (msgIds s) (Helpers.toString m)
            && securityChecks s = false) :
  decryptMessageData s
    (remoteFrame kid masterKey (saltB ++ sidB ++ P ++ padding))
  = (Ok (mkTLMessage _ m q o),
     set_msgIds s (recordMsgId (msgIds s) (Helpers.toString m))).
Proof.
  destruct (envelope_Ok m q body P HP) as (Hq & ->).
  rewrite <- !app_assoc.
  rewrite (decrypt_remoteFrame_flat s ak masterKey kid saltB sidB
             (Buf.le_bytes 4 q) (Buf.le_bytes 4 (Buf.len body))
             (body ++ padding) m o); try assumption;
    try apply length_le_bytes.
  rewrite le_signed_le_bytes; [reflexivity | lia |].
  change (8 * Z.of_nat 4 - 1) with 31. exact Hq.
Qed.

End RemoteFrame.

Lemma demo_state_reachable (checks : bool) :
  reachable (C := Demo.collaborators) (Demo.state checks).
Proof. apply reach_salt, reach_new. Qed.

Lemma demo_ige_inverse (k i p : bytes) :
  Demo.decrypt k i (Demo.encrypt k i p) = p.
Proof.
  unfold Demo.decrypt, Demo.encrypt.
  generalize (k ++ i) as ks, 0%nat as j. intros ks j. revert j.
  induction p as [| x p IH]; intro j; [reflexivity |].
  cbn [Demo.addStream]. rewrite IH. f_equal.
  set (kz := Buf.to_Z (nth (Nat.modulo j (List.length ks)) ks x00)).
  rewrite to_Z_of_Z, <- of_Z_mod, Zplus_mod_idemp_l, of_Z_mod.
  replace (Buf.to_Z x + 1 * kz + -1 * kz) with (Buf.to_Z x) by lia.
  apply of_Z_to_Z.
Qed.

Lemma demo_frame_decrypt (s : MTProtoState) (m : Z) :
  authKey s = Some Demo.key ->
  - 2 ^ 63 <= m < 2 ^ 63 ->
  Helpers.includes (msgIds s) (Helpers.toString m) && securityChecks s
  = false ->
  decryptMessageData (C := Demo.collaborators) s (Demo.frame m)
  = (Ok (mkTLMessage Demo.collaborators m 1 [x07; x08; x09]),
     set_msgIds s (recordMsgId (msgIds s) (Helpers.toString m))).
Proof.
  intros Hak Hm Hfresh.
  unfold Demo.frame, Demo.plaintext.
  rewrite (decrypt_remoteFrame_flat (C := Demo.collaborators)
             digest_length demo_ige_inverse s Demo.key Demo.masterKey _
             _ _ (Buf.le_bytes 4 1) (Buf.le_bytes 4 4) _ m
             [x07; x08; x09] Hak eq_refl eq_refl);
    try reflexivity; try assumption.
  lia.
Qed.

Lemma demo_window (n : nat) :
  forall (s : MTProtoState) (k : nat),
    authKey s = Some Demo.key ->
    Z.of_nat (k + n) < 2 ^ 63 ->
    (forall j, (k <= j)%nat ->
               ~ In (Helpers.toString (Z.of_nat j)) (msgIds s)) ->
    msgIds (snd (decryptEach (C := Demo.collaborators) s
                   (map Demo.frame (map Z.of_nat (seq k n)))))
    = fold_left recordMsgId
        (map Helpers.toString (map Z.of_nat (seq k n))) (msgIds s).
Proof.
  induction n as [| n IH]; intros s k Hak Hk Hfresh; [reflexivity |].
  cbn [seq map decryptEach fold_left].
  rewrite demo_frame_decrypt; [| exact Hak | lia |].
  - specialize (IH (set_msgIds s
                      (recordMsgId (msgIds s)
                         (Helpers.toString (Z.of_nat k)))) (S k)).
    destruct (decryptEach _ _) as [rs s2]. cbn [snd] in *.
    apply IH; [exact Hak | lia |].
    intros j Hj Hin. cbn [msgIds set_msgIds] in Hin.
    rewrite recordMsgId_unfold in Hin.
    apply in_app_or in Hin as [Hin | [Hin | []]].
    + apply (Hfresh j); [lia |].
      destruct (500 <? List.length (msgIds s))%nat; [| exact Hin].
      destruct (msgIds s); [exact Hin | now right].
    + apply toString_inj in Hin. lia.
  - destruct (Helpers.includes _ _) eqn:E; [| reflexivity].
    apply includes_In in E. exfalso. exact (Hfresh k (Nat.le_refl k) E).
Qed.

Lemma demo_window_501 :
  msgIds (Demo.stateAfter 501)
  = map Helpers.toString (map Z.of_nat (seq 1 501)).
Proof.
  unfold Demo.stateAfter.
  rewrite demo_window.
  - apply fold_recordMsgId_small. now rewrite !length_map, length_seq.
  - reflexivity.
  - cbn. lia.
  - intros j _ [].
Qed.

(** C2: the window is meant to hold 500 entries, but its length is tested
    with [> 500] before the push. Decrypting 501 frames with the distinct
    remote IDs 1, ..., 501 on a fresh state leaves a reachable state whose
    window holds all 501 of them: one more than 500, and the first ID is
    still flagged as a duplicate. *)
Lemma replay_window_holds_501 :
  reachable (C := Demo.collaborators) (Demo.stateAfter 501)
  /\ msgIds (Demo.stateAfter 501)
     = map Helpers.toString (map Z.of_nat (seq 1 501))
  /\ List.length (msgIds (Demo.stateAfter 501)) = 501%nat
  /\ Helpers.includes (msgIds (Demo.stateAfter 501)) (Helpers.toString 1)
     = true.
Proof.
  split; [apply decryptEach_reachable, demo_state_reachable |].
  rewrite demo_window_501.
  split; [reflexivity | split; vm_compute; reflexivity].
Qed.

Lemma decrypt_msgKey_check_witness :
  8 <= Buf.len Demo.zeroFrame
  /\ (expectedMsgKey (C := Demo.collaborators) Demo.masterKey Demo.zeroFrame
      <> range Demo.zeroFrame 8 24 ->
      forall s', authKey s' = authKey (Demo.state true) ->
                 decryptMessageData (C := Demo.collaborators) s' Demo.zeroFrame
                 = (Err msgKeyMismatch, s')).
Proof.
  split; [cbn; lia |].
  exact (proj1 (proj2 (decrypt_msgKey_check (C := Demo.collaborators)
    (Demo.state true) Demo.zeroFrame Demo.key 0x1122334455667788
    Demo.masterKey eq_refl ltac:(cbn; lia) eq_refl eq_refl eq_refl))).
Defined.


Lemma demo_payload_envelope :
  envelope 1234 1 [x03; x07; x08; x09] = Ok Demo.payload.
Proof. reflexivity. Qed.

Lemma decrypt_inverts_remote_encrypt_witness :
  envelope 1234 1 [x03; x07; x08; x09] = Ok Demo.payload
  /\ decryptMessageData (C := Demo.collaborators) (Demo.state true)
       (remoteFrame (C := Demo.collaborators)
          0x1122334455667788 Demo.masterKey
          (Buf.le_bytes 8 77 ++ Buf.le_bytes 8 0x0102030405060708
           ++ Demo.payload ++ repeat xaa 12))
     = (Ok (mkTLMessage Demo.collaborators 1234 1 [x07; x08; x09]),
        set_msgIds (Demo.state true)
          (recordMsgId (msgIds (Demo.state true))
             (Helpers.toString 1234))).
Proof.
  split; [exact demo_payload_envelope |].
  exact (decrypt_inverts_remote_encrypt (C := Demo.collaborators)
           digest_length demo_ige_inverse
           (Demo.state true) Demo.key Demo.masterKey 0x1122334455667788
           (Buf.le_bytes 8 77) (Buf.le_bytes 8 0x0102030405060708)
           1234 1 [x03; x07; x08; x09] (repeat xaa 12) Demo.payload
           [x07; x08; x09]
           eq_refl eq_refl eq_refl ltac:(lia) eq_refl eq_refl ltac:(lia)
           demo_payload_envelope eq_refl eq_refl).
Defined.

(** C9 (as stated): with a cipher whose decrypt inverts its encrypt, the
    frame the state's own [encryptMessageData] returns for a framed payload
    is rejected by [decryptMessageData] of the same state, with the
    message-key error. *)
Lemma roundtrip_own_frame_rejected :
  (forall k i p, Demo.decrypt k i (Demo.encrypt k i p) = p)
  /\ encryptMessageData (C := Demo.collaborators)
       (Demo.state true) (fun _ => x55) Demo.payload
     = Ok Demo.ownFrame
  /\ decryptMessageData (C := Demo.collaborators)
       (Demo.state true) Demo.ownFrame
     = (Err msgKeyMismatch, Demo.state true).
Proof.
  split; [exact demo_ige_inverse |]. split.
  - vm_compute. reflexivity.
  - unfold decryptMessageData.
    rewrite (decryptBody_checked (C := Demo.collaborators) (Demo.state true)
               Demo.ownFrame Demo.key 0x1122334455667788 Demo.masterKey
               eq_refl ltac:(cbn; lia) eq_refl eq_refl eq_refl).
    replace (Buf.equals (range Demo.ownFrame 8 24)
               (expectedMsgKey (C := Demo.collaborators)
                  Demo.masterKey Demo.ownFrame))
      with false by (vm_compute; reflexivity).
    reflexivity.
Qed.

(* ------------------------------------------------------------------ *)
(** * Further properties of the state object *)

(** ** Message IDs and the clock *)

Lemma lor_high_low (a b : Z) :
  0 <= b < 2 ^ 32 ->
  Z.shiftr (Z.lor (Z.shiftl a 32) b) 32 = a
  /\ Z.land (Z.lor (Z.shiftl a 32) b) (Z.ones 32) = b.
Proof.
  intro Hb. split.
  - rewrite Z.shiftr_lor, Z.shiftr_shiftl_l, Z.sub_diag, Z.shiftl_0_r by lia.
    rewrite (Z.shiftr_div_pow2 b) by lia.
    rewrite Z.div_small by lia. apply Z.lor_0_r.
  - rewrite Z.land_lor_distr_l, !Z.land_ones by lia.
    rewrite Z.shiftl_mul_pow2 by lia.
    rewrite Z.mod_mul by lia. rewrite Z.mod_small by lia.
    apply Z.lor_0_l.
Qed.

Lemma candidate_fields (s : MTProtoState) (c : Clock) :
  0 <= nanos c < 2 ^ 30 ->
  Z.shiftr (candidateMsgId s c) 32 = seconds c + timeOffset s
  /\ Z.land (candidateMsgId s c) (Z.ones 32) = 4 * nanos c.
Proof.
  intro Hn. unfold candidateMsgId.
  assert (E : Z.shiftl (nanos c) 2 = 4 * nanos c)
    by (rewrite Z.shiftl_mul_pow2 by lia; change (2 ^ 2) with 4; lia).
  rewrite E. apply lor_high_low.
  change (2 ^ 32) with (4 * 2 ^ 30). lia.
Qed.

(** X1: in a reachable state every generated message ID is a positive
    multiple of 4 (its two low bits are zero) and is what the state then
    remembers as its last ID. *)
Theorem generated_msgId_aligned `{C : Collaborators}
  (s : MTProtoState) (c : Clock) (Hs : reachable s) :
  fst (_getNewMsgId s c) mod 4 = 0
  /\ Z.land (fst (_getNewMsgId s c)) 3 = 0
  /\ 0 < fst (_getNewMsgId s c)
  /\ _lastMsgId (snd (_getNewMsgId s c)) = fst (_getNewMsgId s c).
Proof.
  destruct (reachable_inv s Hs) as (Ha & Hp & _).
  destruct (getNewMsgId_step4 s c Ha) as [H4 Hm].
  split; [exact Hm |]. split; [| split; [lia | reflexivity]].
  change 3 with (Z.ones 2). rewrite Z.land_ones by lia. exact Hm.
Qed.

Lemma generated_msgId_aligned_witness :
  reachable (C := Demo.collaborators) (Demo.state true)
  /\ fst (_getNewMsgId (Demo.state true) (mkClock 1700000000 123456789))
     mod 4 = 0.
Proof.
  split; [apply reach_salt, reach_new |].
  exact (proj1 (generated_msgId_aligned (C := Demo.collaborators)
                  (Demo.state true) (mkClock 1700000000 123456789)
                  (reach_salt _ _ (reach_new _ _ _)))).
Defined.

(** X2: when the clock-derived candidate is above the last ID and the
    sub-second part is a nanosecond count (below 2^30), the generated ID
    carries the corrected second count in its bits 32 and up and four times
    the sub-second part in its low 32 bits. *)
Theorem generated_msgId_fields (s : MTProtoState) (c : Clock)
  (Hn : 0 <= nanos c < 2 ^ 30)
  (Hnew : _lastMsgId s < candidateMsgId s c) :
  Z.shiftr (fst (_getNewMsgId s c)) 32 = seconds c + timeOffset s
  /\ Z.land (fst (_getNewMsgId s c)) (Z.ones 32) = 4 * nanos c.
Proof.
  rewrite getNewMsgId_result.
  destruct (Z.leb_spec (candidateMsgId s c) (_lastMsgId s)); [lia |].
  apply candidate_fields. exact Hn.
Qed.

Lemma generated_msgId_fields_witness :
  Z.shiftr (fst (_getNewMsgId (constructor None true 1)
                   (mkClock 1700000000 123456789))) 32
  = 1700000000 + 0.
Proof.
  exact (proj1 (generated_msgId_fields (constructor None true 1)
                  (mkClock 1700000000 123456789)
                  ltac:(cbn; lia) ltac:(vm_compute; reflexivity))).
Defined.

(** X3: a second call whose clock candidate is not above the first call's
    (the same reading again, or a clock that stepped back) returns exactly
    the first ID plus 4. *)
Theorem msgId_same_clock_plus_4 (s : MTProtoState) (c1 c2 : Clock)
  (Hback : candidateMsgId s c2 <= candidateMsgId s c1) :
  fst (_getNewMsgId (snd (_getNewMsgId s c1)) c2)
  = fst (_getNewMsgId s c1) + 4.
Proof.
  rewrite (getNewMsgId_result (snd (_getNewMsgId s c1)) c2).
  rewrite getNewMsgId_stored.
  change (candidateMsgId (snd (_getNewMsgId s c1)) c2)
    with (candidateMsgId s c2).
  pose proof (getNewMsgId_result s c1) as E.
  destruct (Z.leb_spec (candidateMsgId s c1) (_lastMsgId s));
    destruct (Z.leb_spec (candidateMsgId s c2) (fst (_getNewMsgId s c1)));
    lia.
Qed.

Lemma msgId_same_clock_plus_4_witness :
  fst (_getNewMsgId
         (snd (_getNewMsgId (constructor None true 1)
                 (mkClock 1700000000 5)))
         (mkClock 1700000000 5))
  = fst (_getNewMsgId (constructor None true 1) (mkClock 1700000000 5)) + 4.
Proof.
  exact (msgId_same_clock_plus_4 (constructor None true 1)
           (mkClock 1700000000 5) (mkClock 1700000000 5) (Z.le_refl _)).
Defined.

(** X4: [updateTimeOffset] makes the generator follow the server's clock:
    once the offset has changed, an ID generated [d] seconds after the
    local reading used for the correction carries the server's second count
    plus [d]. *)
Theorem updateTimeOffset_tracks_server (s : MTProtoState)
  (c1 c2 c : Clock) (m d : Z)
  (Hchg : Z.shiftr m 32 - seconds c2 <> timeOffset s)
  (Hsrv : 0 < Z.shiftr m 32) (Hd : 0 <= d)
  (Hc : seconds c = seconds c2 + d)
  (Hn : 0 <= nanos c < 2 ^ 30) :
  Z.shiftr (fst (_getNewMsgId (snd (updateTimeOffset s c1 c2 m)) c)) 32
  = Z.shiftr m 32 + d.
Proof.
  rewrite updateTimeOffset_unfold. cbv zeta. cbn [snd].
  destruct (Z.eqb_spec (Z.shiftr m 32 - seconds c2) (timeOffset s));
    [contradiction |].
  set (s' := set_lastMsgId _ 0).
  destruct (candidate_fields s' c Hn) as [Hhi Hlo].
  assert (Hoff : timeOffset s' = Z.shiftr m 32 - seconds c2) by reflexivity.
  assert (Hpos : 0 < candidateMsgId s' c).
  { destruct (Z.le_gt_cases (candidateMsgId s' c) 0) as [Hle |]; [| lia].
    exfalso.
    assert (Z.shiftr (candidateMsgId s' c) 32 <= 0).
    { rewrite Z.shiftr_div_pow2 by lia.
      apply Z.div_le_upper_bound; lia. }
    lia. }
  rewrite getNewMsgId_result.
  change (_lastMsgId s') with 0.
  destruct (Z.leb_spec (candidateMsgId s' c) 0); [lia |].
  rewrite Hhi, Hoff. lia.
Qed.

Lemma updateTimeOffset_tracks_server_witness :
  Z.shiftr
    (fst (_getNewMsgId
            (snd (updateTimeOffset (constructor None true 1)
                    (mkClock 1700000000 7) (mkClock 1700000000 7)
                    (Z.shiftl 1700000090 32)))
            (mkClock 1700000002 9))) 32
  = Z.shiftr (Z.shiftl 1700000090 32) 32 + 2.
Proof.
  exact (updateTimeOffset_tracks_server (constructor None true 1)
           (mkClock 1700000000 7) (mkClock 1700000000 7)
           (mkClock 1700000002 9) (Z.shiftl 1700000090 32) 2
           ltac:(vm_compute; discriminate) ltac:(vm_compute; reflexivity)
           ltac:(lia) eq_refl ltac:(cbn; lia)).
Defined.

(** X5: [reset] forgets the last message ID but keeps the time offset: the
    first ID after a reset is the clock candidate under the offset in force
    before it, however large the IDs handed out earlier were. *)
Theorem reset_restarts_msgIds (s : MTProtoState) (sid : Z) (c : Clock)
  (Hpos : 0 < candidateMsgId s c) :
  timeOffset (reset s sid) = timeOffset s
  /\ fst (_getNewMsgId (reset s sid) c) = candidateMsgId s c.
Proof.
  split; [reflexivity |].
  rewrite getNewMsgId_result.
  change (candidateMsgId (reset s sid) c) with (candidateMsgId s c).
  change (_lastMsgId (reset s sid)) with 0.
  destruct (Z.leb_spec (candidateMsgId s c) 0); [lia | reflexivity].
Qed.

Lemma reset_restarts_msgIds_witness :
  fst (_getNewMsgId
         (reset (snd (_getNewMsgId (constructor None true 1)
                        (mkClock 1800000000 0))) 2)
         (mkClock 1700000000 0))
  = candidateMsgId (snd (_getNewMsgId (constructor None true 1)
                           (mkClock 1800000000 0)))
      (mkClock 1700000000 0).
Proof.
  exact (proj2 (reset_restarts_msgIds
                  (snd (_getNewMsgId (constructor None true 1)
                          (mkClock 1800000000 0))) 2
                  (mkClock 1700000000 0) ltac:(vm_compute; reflexivity))).
Defined.

(** ** Sequence numbers *)

Lemma runSeqNo_lower (flags : list bool) :
  forall s, Forall (fun r => 2 * _sequence s <= r) (fst (runSeqNo s flags)).
Proof.
  induction flags as [| f fs IH]; intro s; cbn [runSeqNo]; [constructor |].
  destruct f; cbn [_getSeqNo].
  - specialize (IH (set_sequence s (_sequence s + 1))).
    destruct (runSeqNo _ fs) as [rs s2]. cbn [fst] in *.
    constructor; [lia |].
    eapply Forall_impl; [| exact IH].
    intros a Ha. cbn [_sequence set_sequence] in Ha. lia.
  - specialize (IH s).
    destruct (runSeqNo s fs) as [rs s2]. cbn [fst] in *.
    constructor; [lia | exact IH].
Qed.

(** X6: over any series of calls, the counter ends at its start value plus
    the number of content-related calls; a returned sequence number is odd
    exactly for a content-related call; and the numbers never decrease. *)
Theorem runSeqNo_counts (s : MTProtoState) (flags : list bool) :
  _sequence (snd (runSeqNo s flags))
  = _sequence s + Z.of_nat (count_occ Bool.bool_dec flags true)
  /\ Forall2 (fun f r => Z.odd r = f) flags (fst (runSeqNo s flags))
  /\ StronglySorted Z.le (fst (runSeqNo s flags)).
Proof.
  revert s. induction flags as [| f fs IH]; intro s.
  - cbn. split; [lia | split; constructor].
  - cbn [runSeqNo].
    pose proof (runSeqNo_lower fs (snd (_getSeqNo s f))) as Hlow.
    specialize (IH (snd (_getSeqNo s f))).
    destruct f; cbn [_getSeqNo fst snd] in *.
    + destruct (runSeqNo _ fs) as [rs s2]. cbn [fst snd] in *.
      destruct IH as (Hc & Hp & Hs).
      split; [| split].
      * rewrite Hc. cbn [_sequence set_sequence count_occ].
        destruct (Bool.bool_dec true true); [lia | contradiction].
      * constructor; [| exact Hp].
        replace (_sequence s * 2 + 1) with (1 + 2 * _sequence s) by lia.
        now rewrite Z.odd_add_mul_2.
      * constructor; [exact Hs |].
        eapply Forall_impl; [| exact Hlow].
        intros a Ha. cbn [_sequence set_sequence] in Ha. lia.
    + destruct (runSeqNo s fs) as [rs s2]. cbn [fst snd] in *.
      destruct IH as (Hc & Hp & Hs).
      split; [| split].
      * rewrite Hc. cbn [count_occ].
        destruct (Bool.bool_dec false true); [discriminate | lia].
      * constructor; [| exact Hp].
        replace (_sequence s * 2) with (0 + 2 * _sequence s) by lia.
        now rewrite Z.odd_add_mul_2.
      * constructor; [exact Hs |].
        eapply Forall_impl; [| exact Hlow].
        intros a Ha. cbv beta in Ha. lia.
Qed.

(** ** The writer and the framing of a message *)

(** X7: the writer accumulates: after a series of writes its value is the
    initial stream followed by the written buffers in order. *)
Theorem writer_accumulates (bufs : list bytes) (w : BinaryWriter.t) :
  BinaryWriter.getValue (fold_left BinaryWriter.write bufs w)
  = BinaryWriter.getValue w ++ List.concat bufs.
Proof.
  revert w. induction bufs as [| b bs IH]; intro w; cbn [fold_left].
  - cbn. now rewrite app_nil_r.
  - rewrite IH. unfold BinaryWriter.write, BinaryWriter.getValue, Buf.concat.
    cbn. now rewrite app_nil_r, <- app_assoc.
Qed.

Section Framing.
Context `{C : Collaborators}.

Lemma writeDataAsMessage_unfold s c w data f a :
  writeDataAsMessage s c w data f a
  = let m := fst (_getNewMsgId s c) in
    let s1 := snd (_getNewMsgId s c) in
    let q := fst (_getSeqNo s1 f) in
    let s2 := snd (_getSeqNo s1 f) in
    match envelope m q (framedBody data f a) with
    | Err e => (Err e, s2)
    | Ok framed => (Ok (m, BinaryWriter.write w framed), s2)
    end.
Proof.
  unfold writeDataAsMessage, framedBody.
  destruct (_getNewMsgId s c) as [m s1]. cbn [fst snd].
  destruct (_getSeqNo s1 f) as [q s2]. cbn [fst snd].
  destruct a; reflexivity.
Qed.

Lemma envelope_cases (m q : Z) (body : bytes) :
  (- 2 ^ 31 <= q < 2 ^ 31 /\ Buf.len body < 2 ^ 31
   /\ envelope m q body
      = Ok (Buf.le_bytes 8 m ++ Buf.le_bytes 4 q
            ++ Buf.le_bytes 4 (Buf.len body) ++ body))
  \/ ((q < - 2 ^ 31 \/ 2 ^ 31 <= q \/ 2 ^ 31 <= Buf.len body)
      /\ envelope m q body = Err RangeError).
Proof.
  assert (Hl : 0 <= Buf.len body) by (unfold Buf.len; lia).
  unfold envelope, writeInt32LE.
  destruct (Z.leb_spec (- 2 ^ 31) q);
    destruct (Z.ltb_spec q (2 ^ 31)); cbn [andb];
    try (right; split; [lia | reflexivity]).
  destruct (Z.leb_spec (- 2 ^ 31) (Buf.len body)); [| lia].
  destruct (Z.ltb_spec (Buf.len body) (2 ^ 31)); cbn [andb].
  - left. split; [lia | split; [lia |]].
    unfold Buf.concat, Helpers.toSignedLittleBuffer. cbn [List.concat].
    now rewrite !app_nil_r, <- !app_assoc.
  - right. split; [lia | reflexivity].
Qed.

(** The two outcomes of [writeDataAsMessage], with the state it leaves. *)
Lemma writeDataAsMessage_cases (s : MTProtoState) (c : Clock)
  (w : BinaryWriter.t) (data : bytes) (f : bool) (a : option Z) :
  let body := framedBody data f a in
  let m := fst (_getNewMsgId s c) in
  let q := _sequence s * 2 + (if f then 1 else 0) in
  let r := writeDataAsMessage s c w data f a in
  _lastMsgId (snd r) = m
  /\ _sequence (snd r) = _sequence s + (if f then 1 else 0)
  /\ ((- 2 ^ 31 <= q < 2 ^ 31 /\ Buf.len body < 2 ^ 31
       /\ fst r = Ok (m, BinaryWriter.mk
                           (BinaryWriter.getValue w ++ Buf.le_bytes 8 m
                            ++ Buf.le_bytes 4 q
                            ++ Buf.le_bytes 4 (Buf.len body) ++ body)))
      \/ ((q < - 2 ^ 31 \/ 2 ^ 31 <= q \/ 2 ^ 31 <= Buf.len body)
          /\ fst r = Err RangeError)).
Proof.
  intros body m q r. unfold r. rewrite writeDataAsMessage_unfold. cbv zeta.
  fold body. fold m.
  assert (Eq : fst (_getSeqNo (snd (_getNewMsgId s c)) f) = q)
    by (destruct f; cbn; unfold q; lia).
  rewrite Eq.
  assert (Es : _sequence (snd (_getSeqNo (snd (_getNewMsgId s c)) f))
               = _sequence s + (if f then 1 else 0))
    by (destruct f; cbn; lia).
  assert (El : _lastMsgId (snd (_getSeqNo (snd (_getNewMsgId s c)) f)) = m)
    by (destruct f; reflexivity).
  destruct (envelope_cases m q body)
    as [(Hq & Hb & E) | (Hbad & E)]; rewrite E; cbn [fst snd].
  - split; [exact El | split; [exact Es |]].
    left. split; [exact Hq | split; [exact Hb |]].
    unfold BinaryWriter.write, BinaryWriter.getValue, Buf.concat.
    cbn [List.concat]. now rewrite app_nil_r.
  - split; [exact El | split; [exact Es |]].
    right. split; [exact Hbad | reflexivity].
Qed.

(** X8: a successful [writeDataAsMessage] returns the ID it generated and
    appends to the sink exactly the ID on 8 bytes, the sequence number on 4,
    the body length on 4 and the body: 16 bytes more than the body. *)
Theorem writeDataAsMessage_layout (s : MTProtoState) (c : Clock)
  (w w' : BinaryWriter.t) (data : bytes) (f : bool) (a : option Z) (m : Z)
  (Hok : fst (writeDataAsMessage s c w data f a) = Ok (m, w')) :
  let body := match a with
              | None => gzipIfSmaller f data
              | Some x => gzipIfSmaller f (invokeAfterMsg x data)
              end in
  let q := _sequence s * 2 + (if f then 1 else 0) in
  m = fst (_getNewMsgId s c)
  /\ BinaryWriter.getValue w'
     = BinaryWriter.getValue w ++ Buf.le_bytes 8 m ++ Buf.le_bytes 4 q
       ++ Buf.le_bytes 4 (Buf.len body) ++ body
  /\ Buf.len (BinaryWriter.getValue w')
     = Buf.len (BinaryWriter.getValue w) + 16 + Buf.len body.
Proof.
  intros body q.
  destruct (writeDataAsMessage_cases s c w data f a)
    as (_ & _ & [(_ & _ & E) | (_ & E)]); rewrite E in Hok;
    [| discriminate].
  apply Ok_inj in Hok.
  pose proof (f_equal fst Hok) as Hm. pose proof (f_equal snd Hok) as Hw.
  cbn [fst snd] in Hm, Hw. subst m w'.
  split; [reflexivity |]. cbn [BinaryWriter.getValue BinaryWriter._stream].
  split; [reflexivity |].
  unfold Buf.len. rewrite !length_app, !length_le_bytes.
  change (framedBody data f a) with body. lia.
Qed.

(** X9: [writeDataAsMessage] throws exactly when the sequence number or the
    body length does not fit a signed 32-bit field, and then with a range
    error; thrown or not, the call has consumed a message ID and, for a
    content-related message, a sequence slot. *)
Theorem writeDataAsMessage_failure (s : MTProtoState) (c : Clock)
  (w : BinaryWriter.t) (data : bytes) (f : bool) (a : option Z) :
  let body := match a with
              | None => gzipIfSmaller f data
              | Some x => gzipIfSmaller f (invokeAfterMsg x data)
              end in
  let q := _sequence s * 2 + (if f then 1 else 0) in
  let r := writeDataAsMessage s c w data f a in
  (fst r = Err RangeError
   <-> (q < - 2 ^ 31 \/ 2 ^ 31 <= q \/ 2 ^ 31 <= Buf.len body))
  /\ (fst r = Err RangeError
      \/ exists w', fst r = Ok (fst (_getNewMsgId s c), w'))
  /\ _lastMsgId (snd r) = fst (_getNewMsgId s c)
  /\ _lastMsgId s < _lastMsgId (snd r)
  /\ _sequence (snd r) = _sequence s + (if f then 1 else 0).
Proof.
  intros body q r.
  pose proof (getNewMsgId_gt s c) as Hgt.
  destruct (writeDataAsMessage_cases s c w data f a)
    as (El & Es & [(Hq & Hb & E) | (Hbad & E)]);
    change (framedBody data f a) with body in *; fold q in Hq || fold q in Hbad;
    fold r in El, Es, E.
  - rewrite E. split; [split; [discriminate | lia] |].
    split; [right; eexists; reflexivity |].
    rewrite El. repeat split; [lia | exact Es].
  - rewrite E. split; [split; [intros _; exact Hbad | reflexivity] |].
    split; [now left |].
    rewrite El. repeat split; [lia | exact Es].
Qed.

(** X10: two calls in a row hand out increasing message IDs, and the second
    call only appends, at least 16 bytes, to what the first left in the
    sink. *)
Theorem writeDataAsMessage_twice (s : MTProtoState) (c1 c2 : Clock)
  (w w1 w2 : BinaryWriter.t) (d1 d2 : bytes) (f1 f2 : bool)
  (a1 a2 : option Z) (m1 m2 : Z)
  (H1 : fst (writeDataAsMessage s c1 w d1 f1 a1) = Ok (m1, w1))
  (H2 : fst (writeDataAsMessage (snd (writeDataAsMessage s c1 w d1 f1 a1))
               c2 w1 d2 f2 a2) = Ok (m2, w2)) :
  m1 < m2
  /\ exists tail, BinaryWriter.getValue w2
                  = BinaryWriter.getValue w1 ++ tail
                  /\ (16 <= List.length tail)%nat.
Proof.
  destruct (writeDataAsMessage_cases s c1 w d1 f1 a1)
    as (L1 & _ & [(_ & _ & E1) | (_ & E1)]); rewrite E1 in H1;
    [| discriminate].
  set (s1 := snd (writeDataAsMessage s c1 w d1 f1 a1)) in *.
  destruct (writeDataAsMessage_cases s1 c2 w1 d2 f2 a2)
    as (_ & _ & [(_ & _ & E2) | (_ & E2)]); rewrite E2 in H2;
    [| discriminate].
  apply Ok_inj in H1. apply Ok_inj in H2.
  pose proof (f_equal fst H1) as M1. pose proof (f_equal fst H2) as M2.
  pose proof (f_equal snd H2) as W2. cbn [fst snd] in M1, M2, W2.
  split.
  - pose proof (getNewMsgId_gt s1 c2) as G. rewrite L1 in G. lia.
  - subst w2. cbn [BinaryWriter.getValue BinaryWriter._stream].
    eexists. split; [reflexivity |].
    rewrite !length_app, !length_le_bytes. lia.
Qed.

End Framing.

(** ** Encryption: failures and frame size *)

Section EncryptMore.
Context `{C : Collaborators}.

Lemma encryptMessageData_ready (s : MTProtoState) (rnd : nat -> byte)
  (data : bytes) (ak : AuthKey) (masterKey : bytes) (slt sid kid : Z) :
  authKey s = Some ak -> getKey ak = Some masterKey ->
  salt s = Some slt -> id s = Some sid -> keyId ak = Some kid ->
  let pt := Buf.le_bytes 8 slt ++ Buf.le_bytes 8 sid ++ data in
  let padding :=
    Helpers.generateRandomBytes rnd (paddingLength (Buf.len pt)) in
  let msgKey :=
    range (sha256 (range masterKey 88 120 ++ pt ++ padding)) 8 24 in
  let ki := _calcKey masterKey msgKey true in
  encryptMessageData s rnd data
  = Ok (Buf.le_bytes 8 kid ++ msgKey
        ++ encryptIge (key ki) (iv ki) (pt ++ padding)).
Proof.
  intros Hak Hkey Hsalt Hid Hkid. cbv zeta.
  unfold encryptMessageData. rewrite Hak, Hkey, Hsalt, Hid, Hkid. cbv zeta.
  unfold Helpers.toSignedLittleBuffer, Helpers.readBufferFromBigInt,
    Buf.concat.
  rewrite !slice_rangeZ by lia.
  cbn [List.concat]. rewrite !app_nil_r, <- ?app_assoc. reflexivity.
Qed.

(** X11: without a key object [encryptMessageData] fails with "Auth key
    unset" at once. With a key object whose identifier is set (so that
    [waitForKey] returns) and fits 8 unsigned bytes, it fails with "Auth key
    unset" exactly when the key bytes are missing, with "Unset params"
    exactly when the bytes are there but the salt or the session id is not,
    and returns a frame exactly when bytes, salt and session id are all
    there. *)
Theorem encryptMessageData_errors :
  (forall (s : MTProtoState) (rnd : nat -> byte) (data : bytes),
      authKey s = None -> encryptMessageData s rnd data = Err authKeyUnset)
  /\ (forall (s : MTProtoState) (rnd : nat -> byte) (data : bytes)
             (ak : AuthKey) (kid : Z),
         authKey s = Some ak -> keyId ak = Some kid -> 0 <= kid < 2 ^ 64 ->
         (encryptMessageData s rnd data = Err authKeyUnset
          <-> getKey ak = None)
         /\ (encryptMessageData s rnd data = Err unsetParams
             <-> getKey ak <> None /\ (salt s = None \/ id s = None))
         /\ ((exists f, encryptMessageData s rnd data = Ok f)
             <-> getKey ak <> None /\ salt s <> None /\ id s <> None)).
Proof.
  split.
  - intros s rnd data Hak. unfold encryptMessageData. now rewrite Hak.
  - intros s rnd data ak kid Hak Hkid _.
    unfold encryptMessageData. rewrite Hak, Hkid.
    destruct (getKey ak) as [k |] eqn:Hkey.
    2: { split; [| split]; split.
         - reflexivity.
         - reflexivity.
         - discriminate.
         - intros [K _]. congruence.
         - intros (f & K). discriminate.
         - intros [K _]. congruence. }
    destruct (salt s) as [slt |] eqn:Hsalt;
      [destruct (id s) as [sid |] eqn:Hid |]; cbv zeta.
    + split; [| split]; split.
      * discriminate.
      * discriminate.
      * discriminate.
      * intros [_ [K | K]]; discriminate.
      * intros _. repeat split; discriminate.
      * intros _. eexists. reflexivity.
    + split; [| split]; split.
      * discriminate.
      * discriminate.
      * intros _. split; [discriminate | now right].
      * reflexivity.
      * intros (f & K). discriminate.
      * intros (_ & _ & K). congruence.
    + split; [| split]; split.
      * destruct (id s); discriminate.
      * discriminate.
      * intros _. split; [discriminate | now left].
      * destruct (id s); reflexivity.
      * intros (f & K). destruct (id s); discriminate.
      * intros (_ & K & _). congruence.
Qed.

(** X12: with a 32-byte digest and a cipher that keeps the length of an
    input made of whole 16-byte blocks, a returned frame is 24 bytes of key identifier and message key
    followed by a whole number of 16-byte blocks, at least two of them, and
    it opens with the key identifier in little-endian order. *)
Theorem encryptMessageData_frame_size (s : MTProtoState) (rnd : nat -> byte)
  (data frame : bytes) (ak : AuthKey) (kid : Z)
  (Hsha : forall b, List.length (sha256 b) = 32%nat)
  (Hlen : forall k i p, Buf.len p mod 16 = 0 ->
                        Buf.len (encryptIge k i p) = Buf.len p)
  (Hak : authKey s = Some ak) (Hkid : keyId ak = Some kid)
  (Hok : encryptMessageData s rnd data = Ok frame) :
  Buf.len frame
  = 24 + (16 + Buf.len data) + paddingLength (16 + Buf.len data)
  /\ (Buf.len frame - 24) mod 16 = 0
  /\ 56 <= Buf.len frame
  /\ range frame 0 8 = Buf.le_bytes 8 kid.
Proof.
  destruct (getKey ak) as [k |] eqn:Hkey;
    [| unfold encryptMessageData in Hok; rewrite Hak, Hkey in Hok;
       discriminate].
  destruct (salt s) as [slt |] eqn:Hsalt;
    [| unfold encryptMessageData in Hok;
       rewrite Hak, Hkey, Hsalt in Hok; discriminate].
  destruct (id s) as [sid |] eqn:Hid;
    [| unfold encryptMessageData in Hok;
       rewrite Hak, Hkey, Hsalt, Hid in Hok; discriminate].
  pose proof (encryptMessageData_ready s rnd data ak k slt sid kid
                Hak Hkey Hsalt Hid Hkid) as E.
  cbv zeta in E. rewrite E in Hok. clear E.
  apply Ok_inj in Hok. subst frame.
  set (pt := Buf.le_bytes 8 slt ++ Buf.le_bytes 8 sid ++ data).
  set (padding :=
         Helpers.generateRandomBytes rnd (paddingLength (Buf.len pt))).
  set (msgKey := range (sha256 (range k 88 120 ++ pt ++ padding)) 8 24).
  assert (Hpt : Buf.len pt = 16 + Buf.len data).
  { unfold pt, Buf.len. rewrite !length_app, !length_le_bytes. lia. }
  destruct (paddingLength_bounds (Buf.len pt)) as (_ & Hb & Hm).
  assert (Hd : 0 <= Buf.len data) by (unfold Buf.len; lia).
  assert (Hmk : List.length msgKey = 16%nat).
  { unfold msgKey. rewrite length_range by (rewrite Hsha; lia).
    reflexivity. }
  assert (Hpad : Z.of_nat (List.length padding) = paddingLength (Buf.len pt)).
  { unfold padding. rewrite length_generateRandomBytes.
    apply Z2Nat.id. lia. }
  assert (Hf : Buf.len (Buf.le_bytes 8 kid ++ msgKey
                        ++ encryptIge (key (_calcKey k msgKey true))
                             (iv (_calcKey k msgKey true)) (pt ++ padding))
               = 24 + Buf.len pt + paddingLength (Buf.len pt)).
  { assert (Hpp : Buf.len (pt ++ padding)
                  = Buf.len pt + paddingLength (Buf.len pt))
      by (unfold Buf.len at 1; rewrite length_app; unfold Buf.len at 1; lia).
    assert (Hct : Buf.len (encryptIge (key (_calcKey k msgKey true))
                             (iv (_calcKey k msgKey true)) (pt ++ padding))
                  = Buf.len (pt ++ padding))
      by (apply Hlen; rewrite Hpp; exact Hm).
    replace (24 + Buf.len pt + paddingLength (Buf.len pt))
      with (24 + Buf.len (pt ++ padding)) by lia.
    rewrite <- Hct. unfold Buf.len.
    rewrite !length_app, length_le_bytes, Hmk. lia. }
  rewrite Hf. rewrite Hpt in *.
  split; [lia |]. split.
  - replace (24 + (16 + Buf.len data) + paddingLength (16 + Buf.len data) - 24)
      with (16 + Buf.len data + paddingLength (16 + Buf.len data)) by lia.
    exact Hm.
  - split.
    + apply Z.mod_divide in Hm; [| lia]. destruct Hm as [q Hq]. lia.
    + apply range_app_l. now rewrite length_le_bytes.
Qed.

End EncryptMore.

(** ** Decryption: rejections and the state they leave *)

Section DecryptMore.
Context `{C : Collaborators}.

(** X13: the checks [decryptMessageData] makes before decrypting, in their
    order: no key object gives "Auth key unset"; a body under 8 bytes gives
    the invalid-buffer error carrying the body; a key identifier that is
    missing or differs from the first 8 bytes gives the invalid-auth-key
    error; missing key bytes give "Unset AuthKey". Each leaves the state
    as it was. *)
Theorem decryptMessageData_rejections (s : MTProtoState) (body : bytes) :
  (authKey s = None -> decryptMessageData s body = (Err authKeyUnset, s))
  /\ (forall ak, authKey s = Some ak -> Buf.len body < 8 ->
        decryptMessageData s body = (Err (InvalidBufferError body), s))
  /\ (forall ak, authKey s = Some ak -> 8 <= Buf.len body ->
        keyId ak
        <> Some (Helpers.readBigIntFromBuffer (range body 0 8)) ->
        decryptMessageData s body = (Err invalidAuthKey, s))
  /\ (forall ak, authKey s = Some ak -> 8 <= Buf.len body ->
        keyId ak = Some (Helpers.readBigIntFromBuffer (range body 0 8)) ->
        getKey ak = None ->
        decryptMessageData s body = (Err unsetAuthKey, s)).
Proof.
  unfold decryptMessageData, decryptBody.
  split; [| split; [| split]].
  - intros ->. reflexivity.
  - intros ak -> Hl.
    destruct (Z.ltb_spec (Buf.len body) 8); [reflexivity | lia].
  - intros ak -> Hl Hk.
    destruct (Z.ltb_spec (Buf.len body) 8); [lia |].
    rewrite slice_rangeZ by lia.
    change (Z.to_nat 0) with 0%nat. change (Z.to_nat 8) with 8%nat.
    destruct (keyId ak) as [kid |]; [| reflexivity].
    destruct (Z.eqb_spec (Helpers.readBigIntFromBuffer (range body 0 8)) kid)
      as [E | E]; [congruence | reflexivity].
  - intros ak -> Hl Hk Hg.
    destruct (Z.ltb_spec (Buf.len body) 8); [lia |].
    rewrite slice_rangeZ by lia.
    change (Z.to_nat 0) with 0%nat. change (Z.to_nat 8) with 8%nat.
    rewrite Hk, Z.eqb_refl, Hg. reflexivity.
Qed.

Lemma readMessage_outcomes (s : MTProtoState) (pt : bytes) :
  (snd (readMessage s pt) = s
   /\ (fst (readMessage s pt) = Err RangeError
       \/ fst (readMessage s pt) = Err duplicateMsgIds))
  \/ exists m r3,
       readHeader pt = Some (m, r3)
       /\ Helpers.includes (msgIds s) (Helpers.toString m)
          && securityChecks s = false
       /\ snd (readMessage s pt)
          = set_msgIds s (recordMsgId (msgIds s) (Helpers.toString m))
       /\ fst (readMessage s pt) <> Err duplicateMsgIds.
Proof.
  unfold readMessage.
  destruct (readHeader pt) as [[m r3] |]; [| left; split; [| left]; reflexivity].
  destruct (Helpers.includes _ _ && securityChecks s) eqn:Hf;
    [left; split; [| right]; reflexivity |].
  right. exists m, r3. split; [reflexivity | split; [exact Hf |]].
  destruct (BinaryReader.readInt r3) as [[q r4] |];
    [destruct (BinaryReader.readInt r4) as [[l r5] |];
     [destruct (tgReadObject r5) |] |];
    (split; [reflexivity | discriminate]).
Qed.

Lemma decryptBody_not_late (s : MTProtoState) (body : bytes) :
  decryptBody s body <> Err RangeError
  /\ decryptBody s body <> Err DecodeError
  /\ decryptBody s body <> Err duplicateMsgIds.
Proof.
  unfold decryptBody.
  destruct (authKey s) as [ak |]; [| repeat split; discriminate].
  destruct (Buf.len body <? 8); [repeat split; discriminate |].
  destruct (keyId ak) as [kid |]; [| repeat split; discriminate].
  destruct (negb _); [repeat split; discriminate |].
  destruct (getKey ak); [| repeat split; discriminate].
  cbv zeta. destruct (negb _); repeat split; discriminate.
Qed.

(** X14: [decryptMessageData] never assigns a field other than the replay
    window, and a call that fails with anything but a read or decode error
    on the plaintext (so every security and buffer error) leaves the whole
    state as it was. *)
Theorem decrypt_touches_only_window (s : MTProtoState) (body : bytes) :
  snd (decryptMessageData s body)
  = set_msgIds s (msgIds (snd (decryptMessageData s body)))
  /\ (forall e, fst (decryptMessageData s body) = Err e ->
                e <> RangeError -> e <> DecodeError ->
                snd (decryptMessageData s body) = s).
Proof.
  split.
  - destruct (decryptMessageData_state s body) as [-> | [x ->]];
      [destruct s |]; reflexivity.
  - unfold decryptMessageData.
    destruct (decryptBody s body) as [pt | e0]; [| reflexivity].
    intros e He Hr Hd.
    destruct (readMessage_outcomes s pt)
      as [(Hs & _) | (m & r3 & Hh & Hf & Hs & Hnd)]; [exact Hs |].
    exfalso.
    rewrite (readMessage_header s pt m r3 Hh Hf) in He. cbv zeta in He.
    destruct (BinaryReader.readInt r3) as [[q r4] |];
      [destruct (BinaryReader.readInt r4) as [[l r5] |];
       [destruct (tgReadObject r5) |] |];
      cbn [fst] in He; try discriminate; injection He as <-; contradiction.
Qed.

(** X15: with a 32-byte digest, a frame that carries the right key
    identifier but fewer than 24 bytes cannot hold a 16-byte message key
    and is always rejected with the message-key error. *)
Theorem short_frame_rejected (s : MTProtoState) (body : bytes)
  (ak : AuthKey) (masterKey : bytes)
  (Hsha : forall b, List.length (sha256 b) = 32%nat)
  (Hak : authKey s = Some ak) (Hkey : getKey ak = Some masterKey)
  (Hkid : keyId ak
          = Some (Helpers.readBigIntFromBuffer (range body 0 8)))
  (Hlen : 8 <= Buf.len body < 24) :
  decryptMessageData s body = (Err msgKeyMismatch, s).
Proof.
  unfold decryptMessageData.
  rewrite (decryptBody_checked s body ak _ masterKey Hak (proj1 Hlen)
             Hkid eq_refl Hkey).
  destruct (Buf.equals _ _) eqn:E; [| reflexivity].
  exfalso. apply equals_spec in E.
  apply (f_equal (@List.length byte)) in E.
  unfold expectedMsgKey in E.
  rewrite (length_range (sha256 _)) in E by (rewrite Hsha; lia).
  unfold range in E. rewrite length_firstn, length_skipn in E.
  unfold Buf.len in Hlen. lia.
Qed.

(** X16: the remote ID is recorded before the object is decoded. When the
    decoder fails, the ID of the undecodable message is in the window all
    the same, and with security checks on a second attempt at the same
    frame is refused as a duplicate. *)
Theorem decode_failure_records_id (s : MTProtoState) (body : bytes)
  (Hfail : fst (decryptMessageData s body) = Err DecodeError) :
  exists m,
    msgIds (snd (decryptMessageData s body))
    = recordMsgId (msgIds s) (Helpers.toString m)
    /\ Helpers.includes (msgIds (snd (decryptMessageData s body)))
         (Helpers.toString m) = true
    /\ (securityChecks s = true ->
        decryptMessageData (snd (decryptMessageData s body)) body
        = (Err duplicateMsgIds, snd (decryptMessageData s body))).
Proof.
  unfold decryptMessageData in *.
  destruct (decryptBody s body) as [pt | e0] eqn:Hb.
  2: { cbn [fst] in Hfail. injection Hfail as ->.
       exfalso. exact (proj1 (proj2 (decryptBody_not_late s body)) Hb). }
  destruct (readMessage_outcomes s pt)
    as [(_ & [K | K]) | (m & r3 & Hh & Hf & Hs & _)];
    [rewrite K in Hfail; discriminate .. |].
  exists m. rewrite Hs. cbn [msgIds set_msgIds].
  split; [reflexivity | split; [apply includes_recordMsgId |]].
  intro Hc.
  rewrite (decryptBody_authKey s
             (set_msgIds s (recordMsgId (msgIds s) (Helpers.toString m)))
             body eq_refl), Hb.
  unfold readMessage. rewrite Hh. cbn [msgIds set_msgIds securityChecks].
  rewrite includes_recordMsgId, Hc. reflexivity.
Qed.

End DecryptMore.

(** ** The replay window over a session *)

Lemma NoDup_recordMsgId (ids : list string) (x : string) :
  NoDup ids -> ~ In x ids -> NoDup (recordMsgId ids x).
Proof.
  intros Hn Hx. rewrite recordMsgId_unfold.
  assert (Ht : NoDup (tl ids) /\ ~ In x (tl ids)).
  { destruct ids as [| y ids]; [split; assumption |].
    apply NoDup_cons_iff in Hn as [_ Hn]. split; [exact Hn |].
    intro K. apply Hx. now right. }
  destruct (500 <? List.length ids)%nat;
    apply NoDup_app; try tauto; try (constructor; [intros [] | constructor]);
    intros a Ha [<- | []]; tauto.
Qed.

Lemma window_keeps (x : string) (ys : list string) :
  forall l pre post,
    l = pre ++ x :: post ->
    (List.length l <= 501)%nat ->
    (List.length post + List.length ys <= 500)%nat ->
    In x (fold_left recordMsgId ys l).
Proof.
  induction ys as [| y ys IH]; intros l pre post Hl Hlen Hk.
  - cbn. subst l. apply in_or_app. right. now left.
  - cbn [fold_left]. cbn [List.length] in Hk.
    rewrite recordMsgId_unfold.
    destruct (Nat.ltb_spec 500 (List.length l)) as [Hfull | Hroom].
    + destruct pre as [| p pre].
      * subst l. cbn [app List.length] in Hlen, Hfull. lia.
      * apply (IH _ pre (post ++ [y])).
        -- subst l. cbn [app tl]. now rewrite <- app_assoc.
        -- destruct l; [cbn in Hfull; lia |].
           cbn [tl List.length] in *. rewrite length_app. cbn. lia.
        -- rewrite length_app. cbn. lia.
    + apply (IH _ pre (post ++ [y])).
      * subst l. now rewrite <- app_assoc.
      * rewrite length_app. cbn. lia.
      * rewrite length_app. cbn. lia.
Qed.

Section Session.
Context `{C : Collaborators}.

(** X17: while security checks are on, the replay window of a reachable
    state never holds the same remote ID twice. *)
Theorem window_has_no_duplicates (s : MTProtoState)
  (Hs : reachable s) (Hc : securityChecks s = true) :
  NoDup (msgIds s).
Proof.
  revert Hc.
  induction Hs as [k checks sid | s sid _ IH | s v _ IH | s c _ IH
                  | s f _ IH | s c1 c2 m _ IH | s c w d f a _ IH
                  | s body _ IH]; intro Hc.
  - constructor.
  - constructor.
  - exact (IH Hc).
  - exact (IH Hc).
  - destruct f; exact (IH Hc).
  - rewrite updateTimeOffset_unfold in *. cbv zeta in *. cbn [snd] in *.
    destruct (_ =? _); exact (IH Hc).
  - rewrite writeDataAsMessage_state in *. destruct f; exact (IH Hc).
  - unfold decryptMessageData in *.
    destruct (decryptBody s body) as [pt | e0]; [| exact (IH Hc)].
    destruct (readMessage_outcomes s pt)
      as [(Hst & _) | (m & r3 & Hh & Hf & Hst & _)]; rewrite Hst in *.
    + exact (IH Hc).
    + cbn [msgIds set_msgIds securityChecks] in *.
      apply NoDup_recordMsgId; [exact (IH Hc) |].
      rewrite Hc, andb_true_r in Hf. intro K.
      apply includes_In in K. congruence.
Qed.

Lemma decryptEach_fields (bodies : list bytes) :
  forall s, authKey (snd (decryptEach s bodies)) = authKey s
            /\ securityChecks (snd (decryptEach s bodies)) = securityChecks s.
Proof.
  induction bodies as [| b bs IH]; intro s; [split; reflexivity |].
  cbn [decryptEach].
  pose proof (decryptMessageData_state s b) as H1.
  destruct (decryptMessageData s b) as [r s1]. cbn [snd] in H1.
  specialize (IH s1).
  destruct (decryptEach s1 bs) as [rs s2]. cbn [snd] in *.
  destruct H1 as [-> | [x ->]]; exact IH.
Qed.

Lemma decryptEach_window (bodies : list bytes) :
  forall s, exists ys,
    (List.length ys <= List.length bodies)%nat
    /\ msgIds (snd (decryptEach s bodies))
       = fold_left recordMsgId ys (msgIds s).
Proof.
  induction bodies as [| b bs IH]; intro s.
  - exists []. split; [apply Nat.le_refl | reflexivity].
  - cbn [decryptEach].
    pose proof (decryptMessageData_state s b) as H1.
    destruct (decryptMessageData s b) as [r s1]. cbn [snd] in H1.
    destruct (IH s1) as (ys & Hlen & Hw).
    destruct (decryptEach s1 bs) as [rs s2]. cbn [snd] in *.
    destruct H1 as [-> | [x ->]].
    + exists ys. split; [cbn [List.length]; lia | exact Hw].
    + exists (x :: ys). split; [cbn [List.length]; lia | exact Hw].
Qed.

(** X18: with security checks on, a frame that was accepted is refused as a
    duplicate when it comes again after at most 500 other calls to
    [decryptMessageData], whatever those calls returned; the refusal
    changes nothing. *)
Theorem replay_detected_within_500 (s : MTProtoState) (body : bytes)
  (msg : TLMessage) (bodies : list bytes)
  (Hs : reachable s) (Hc : securityChecks s = true)
  (Hok : fst (decryptMessageData s body) = Ok msg)
  (Hn : (List.length bodies <= 500)%nat) :
  decryptMessageData
    (snd (decryptEach (snd (decryptMessageData s body)) bodies)) body
  = (Err duplicateMsgIds,
     snd (decryptEach (snd (decryptMessageData s body)) bodies)).
Proof.
  set (s1 := snd (decryptMessageData s body)) in *.
  set (s2 := snd (decryptEach s1 bodies)).
  destruct (decryptMessageData_Ok s body msg Hok) as (pt & Hb & E).
  assert (H1 : msgIds s1
               = recordMsgId (msgIds s) (Helpers.toString (msgId msg)))
    by (apply decryptMessageData_records; exact Hok).
  assert (Hhdr : exists r3, readHeader pt = Some (msgId msg, r3)).
  { rewrite E in Hok.
    destruct (readMessage_Ok s pt msg Hok) as (r3 & _ & _ & _ & _ & Hh & _).
    now exists r3. }
  destruct Hhdr as (r3 & Hh).
  assert (Hf1 : authKey s1 = authKey s /\ securityChecks s1 = securityChecks s).
  { unfold s1.
    destruct (decryptMessageData_state s body) as [-> | [x ->]];
      split; reflexivity. }
  destruct Hf1 as (Ha1 & Hc1).
  destruct (decryptEach_fields bodies s1) as (Ha2 & Hc2). fold s2 in Ha2, Hc2.
  assert (Hin : In (Helpers.toString (msgId msg)) (msgIds s2)).
  { destruct (decryptEach_window bodies s1) as (ys & Hlen & Hw).
    unfold s2. rewrite Hw, H1, recordMsgId_unfold.
    eapply (window_keeps _ _ _
              (if (500 <? List.length (msgIds s))%nat
               then tl (msgIds s) else msgIds s) []); [reflexivity | |].
    - rewrite <- recordMsgId_unfold, length_recordMsgId.
      destruct (reachable_inv s Hs) as (_ & _ & Hl).
      destruct (Nat.ltb_spec 500 (List.length (msgIds s))); lia.
    - cbn [List.length]. lia. }
  unfold decryptMessageData.
  rewrite (decryptBody_authKey s s2 body) by congruence.
  rewrite Hb. unfold readMessage. rewrite Hh.
  rewrite (proj2 (includes_In _ _) Hin).
  replace (securityChecks s2) with true by congruence.
  reflexivity.
Qed.

(** X19: [reset] empties the replay window: a frame accepted before the
    reset is accepted again after it, security checks or not, and is then
    the only entry of the window. *)
Theorem reset_reaccepts (s : MTProtoState) (body : bytes) (msg : TLMessage)
  (sid : Z) (Hok : fst (decryptMessageData s body) = Ok msg) :
  decryptMessageData (reset (snd (decryptMessageData s body)) sid) body
  = (Ok msg,
     set_msgIds (reset s sid) [Helpers.toString (msgId msg)]).
Proof.
  destruct (decryptMessageData_Ok s body msg Hok) as (pt & Hb & E).
  rewrite E in Hok.
  destruct (readMessage_Ok s pt msg Hok)
    as (r3 & q & r4 & l & r5 & Hh & Hf & Hq & Hl & Ho & Hsq & Hst).
  rewrite E, Hst.
  set (s0 := reset _ sid).
  assert (Es0 : s0 = reset s sid) by reflexivity.
  unfold decryptMessageData.
  rewrite (decryptBody_authKey s s0 body eq_refl), Hb.
  rewrite (readMessage_header s0 pt (msgId msg) r3 Hh eq_refl).
  cbv zeta. rewrite Hq, Hl, Ho.
  destruct msg as [m' q' o']. cbn in *. subst q'. reflexivity.
Qed.

End Session.

(** ** The key deriver's inputs and outputs *)

(** X20: the key deriver reads the master key only through two 36-byte
    windows, at [x] and [x + 40]: master keys (and flags) that show the
    same bytes there give the same key and iv. *)
Theorem calcKey_windows `{C : Collaborators} (K K' msgKey : bytes)
  (client client' : bool) :
  let x := if client then 0%nat else 8%nat in
  let x' := if client' then 0%nat else 8%nat in
  range K x (x + 36) = range K' x' (x' + 36) ->
  range K (x + 40) (x + 76) = range K' (x' + 40) (x' + 76) ->
  _calcKey K msgKey client = _calcKey K' msgKey client'.
Proof.
  intros x x' H1 H2. rewrite !calcKey_eq_spec. unfold calcKey_spec.
  fold x. fold x'. rewrite H1, H2. reflexivity.
Qed.

(** X21: with a 32-byte digest the derived key and iv are 32 bytes each,
    whatever the lengths of the master key and of the message key. *)
Theorem calcKey_output_lengths `{C : Collaborators}
  (masterKey messageKey : bytes) (client : bool)
  (Hsha : forall b, List.length (sha256 b) = 32%nat) :
  List.length (key (_calcKey masterKey messageKey client)) = 32%nat
  /\ List.length (iv (_calcKey masterKey messageKey client)) = 32%nat.
Proof.
  rewrite calcKey_eq_spec. unfold calcKey_spec. cbn [key iv].
  rewrite !length_app, !length_range by (rewrite Hsha; lia).
  split; reflexivity.
Qed.

(** ** Instances of the properties above *)

Lemma demo_encrypt_length (k i p : bytes) :
  List.length (Demo.encrypt k i p) = List.length p.
Proof.
  unfold Demo.encrypt. generalize (k ++ i) as ks, 0%nat as j.
  intros ks j. revert j.
  induction p as [| x p IH]; intro j; [reflexivity |].
  cbn [Demo.addStream List.length]. now rewrite IH.
Qed.

Lemma demo_ownFrame :
  encryptMessageData (C := Demo.collaborators)
    (Demo.state true) (fun _ => x55) Demo.payload
  = Ok Demo.ownFrame.
Proof. vm_compute. reflexivity. Qed.

Lemma demo_undecodable (s : MTProtoState) :
  authKey s = Some Demo.key ->
  Helpers.includes (msgIds s) (Helpers.toString 5555) && securityChecks s
  = false ->
  fst (decryptMessageData (C := Demo.collaborators) s Sample.undecodable)
  = Err DecodeError.
Proof.
  intros Hak Hf. unfold decryptMessageData, Sample.undecodable.
  rewrite (decryptBody_remoteFrame (C := Demo.collaborators)
             digest_length demo_ige_inverse s Demo.key Demo.masterKey _ _
             Hak eq_refl eq_refl ltac:(lia)).
  assert (Hh : readHeader
                 (Buf.le_bytes 8 77 ++ Buf.le_bytes 8 0x0102030405060708
                  ++ Buf.le_bytes 8 5555 ++ Buf.le_bytes 4 1
                  ++ Buf.le_bytes 4 2 ++ [x09; x01])
               = Some (5555, Buf.le_bytes 4 1 ++ Buf.le_bytes 4 2
                             ++ [x09; x01])) by reflexivity.
  rewrite (readMessage_header (C := Demo.collaborators) s _ 5555 _ Hh Hf).
  reflexivity.
Qed.

Lemma writeDataAsMessage_layout_witness :
  fst (writeDataAsMessage (C := Demo.collaborators) (Demo.state true)
         (mkClock 1 0) Sample.sink [x01; x02] true None)
  = Ok (4294967296,
        BinaryWriter.mk ([x0a; x0b; x0c] ++ Buf.le_bytes 8 4294967296
                         ++ Buf.le_bytes 4 1 ++ Buf.le_bytes 4 2
                         ++ [x01; x02]))
  /\ Buf.len
       (BinaryWriter.getValue
          (BinaryWriter.mk ([x0a; x0b; x0c] ++ Buf.le_bytes 8 4294967296
                            ++ Buf.le_bytes 4 1 ++ Buf.le_bytes 4 2
                            ++ [x01; x02])))
     = Buf.len (BinaryWriter.getValue Sample.sink) + 16 + Buf.len [x01; x02].
Proof.
  split; [reflexivity |].
  exact (proj2 (proj2 (writeDataAsMessage_layout (C := Demo.collaborators)
    (Demo.state true) (mkClock 1 0) Sample.sink _ [x01; x02] true None
    4294967296 eq_refl))).
Defined.

Lemma writeDataAsMessage_twice_witness :
  4294967296 < 4294967300.
Proof.
  exact (proj1 (writeDataAsMessage_twice (C := Demo.collaborators)
    (Demo.state true) (mkClock 1 0) (mkClock 1 0) Sample.sink
    (BinaryWriter.mk ([x0a; x0b; x0c] ++ Buf.le_bytes 8 4294967296
                      ++ Buf.le_bytes 4 1 ++ Buf.le_bytes 4 2
                      ++ [x01; x02]))
    (BinaryWriter.mk (([x0a; x0b; x0c] ++ Buf.le_bytes 8 4294967296
                       ++ Buf.le_bytes 4 1 ++ Buf.le_bytes 4 2
                       ++ [x01; x02])
                      ++ Buf.le_bytes 8 4294967300 ++ Buf.le_bytes 4 2
                      ++ Buf.le_bytes 4 1 ++ [x05]))
    [x01; x02] [x05] true false None None 4294967296 4294967300
    eq_refl eq_refl)).
Defined.

Lemma encryptMessageData_errors_witness :
  authKey (set_salt (Demo.state true) None) = Some Demo.key
  /\ (encryptMessageData (C := Demo.collaborators)
        (set_salt (Demo.state true) None) (fun _ => x55) Demo.payload
      = Err unsetParams
      <-> getKey Demo.key <> None
          /\ (salt (set_salt (Demo.state true) None) = None
              \/ id (set_salt (Demo.state true) None) = None)).
Proof.
  split; [reflexivity |].
  exact (proj1 (proj2 (proj2 (encryptMessageData_errors
    (C := Demo.collaborators))
    (set_salt (Demo.state true) None) (fun _ => x55) Demo.payload
    Demo.key 0x1122334455667788 eq_refl eq_refl ltac:(lia)))).
Defined.

Lemma encryptMessageData_frame_size_witness :
  encryptMessageData (C := Demo.collaborators)
    (Demo.state true) (fun _ => x55) Demo.payload = Ok Demo.ownFrame
  /\ (Buf.len Demo.ownFrame - 24) mod 16 = 0.
Proof.
  split; [exact demo_ownFrame |].
  exact (proj1 (proj2 (encryptMessageData_frame_size
    (C := Demo.collaborators) (Demo.state true) (fun _ => x55)
    Demo.payload Demo.ownFrame Demo.key 0x1122334455667788
    digest_length
    (fun k i p _ => f_equal Z.of_nat (demo_encrypt_length k i p))
    eq_refl eq_refl demo_ownFrame))).
Defined.

Lemma decryptMessageData_rejections_witness :
  decryptMessageData (C := Demo.collaborators) (Demo.state true) [x01; x02]
  = (Err (InvalidBufferError [x01; x02]), Demo.state true).
Proof.
  exact (proj1 (proj2 (decryptMessageData_rejections
    (C := Demo.collaborators) (Demo.state true) [x01; x02]))
    Demo.key eq_refl ltac:(cbn; lia)).
Defined.

Lemma short_frame_rejected_witness :
  8 <= Buf.len Sample.shortFrame < 24
  /\ decryptMessageData (C := Demo.collaborators)
       (Demo.state true) Sample.shortFrame
     = (Err msgKeyMismatch, Demo.state true).
Proof.
  split; [cbn; lia |].
  exact (short_frame_rejected (C := Demo.collaborators)
           (Demo.state true) Sample.shortFrame Demo.key Demo.masterKey
           digest_length eq_refl eq_refl eq_refl ltac:(cbn; lia)).
Defined.

Lemma decode_failure_records_id_witness :
  fst (decryptMessageData (C := Demo.collaborators)
         (Demo.state true) Sample.undecodable) = Err DecodeError
  /\ exists m,
       msgIds (snd (decryptMessageData (C := Demo.collaborators)
                      (Demo.state true) Sample.undecodable))
       = recordMsgId (msgIds (Demo.state true)) (Helpers.toString m).
Proof.
  split; [exact (demo_undecodable (Demo.state true) eq_refl eq_refl) |].
  destruct (decode_failure_records_id (C := Demo.collaborators)
              (Demo.state true) Sample.undecodable
              (demo_undecodable (Demo.state true) eq_refl eq_refl))
    as (m & Hm & _).
  exists m. exact Hm.
Defined.

Lemma window_has_no_duplicates_witness :
  securityChecks (Demo.stateAfter 3) = true
  /\ NoDup (msgIds (Demo.stateAfter 3)).
Proof.
  assert (Hc : securityChecks (Demo.stateAfter 3) = true).
  { unfold Demo.stateAfter.
    rewrite (proj2 (decryptEach_fields (C := Demo.collaborators) _ _)).
    reflexivity. }
  split; [exact Hc |].
  exact (window_has_no_duplicates (C := Demo.collaborators)
           (Demo.stateAfter 3)
           (decryptEach_reachable _ _ (demo_state_reachable true)) Hc).
Defined.

Lemma replay_detected_within_500_witness :
  fst (decryptMessageData (C := Demo.collaborators)
         (snd (decryptEach (C := Demo.collaborators)
                 (snd (decryptMessageData (C := Demo.collaborators)
                         (Demo.state true) (Demo.frame 1)))
                 [Sample.undecodable; Demo.frame 2; Sample.shortFrame]))
         (Demo.frame 1))
  = Err duplicateMsgIds.
Proof.
  exact (f_equal fst
    (replay_detected_within_500 (C := Demo.collaborators)
       (Demo.state true) (Demo.frame 1)
       (mkTLMessage Demo.collaborators 1 1 [x07; x08; x09])
       [Sample.undecodable; Demo.frame 2; Sample.shortFrame]
       (demo_state_reachable true) eq_refl
       (f_equal fst (demo_frame_decrypt (Demo.state true) 1
                       eq_refl ltac:(lia) eq_refl))
       ltac:(cbn; lia))).
Defined.

Lemma reset_reaccepts_witness :
  fst (decryptMessageData (C := Demo.collaborators)
         (reset (snd (decryptMessageData (C := Demo.collaborators)
                        (Demo.state true) (Demo.frame 1234))) 9)
         (Demo.frame 1234))
  = Ok (mkTLMessage Demo.collaborators 1234 1 [x07; x08; x09]).
Proof.
  exact (f_equal fst
    (reset_reaccepts (C := Demo.collaborators)
       (Demo.state true) (Demo.frame 1234)
       (mkTLMessage Demo.collaborators 1234 1 [x07; x08; x09]) 9
       (f_equal fst (demo_frame_decrypt (Demo.state true) 1234
                       eq_refl ltac:(lia) eq_refl)))).
Defined.

Lemma calcKey_windows_witness :
  _calcKey (C := Demo.collaborators) Sample.flatKey (repeat x01 16) true
  = _calcKey (C := Demo.collaborators) Sample.flatKey (repeat x01 16) false.
Proof.
  exact (calcKey_windows (C := Demo.collaborators)
           Sample.flatKey Sample.flatKey (repeat x01 16) true false
           eq_refl eq_refl).
Defined.

Lemma calcKey_output_lengths_witness :
  List.length
    (key (_calcKey (C := Demo.collaborators) Demo.masterKey
            (repeat x01 16) false)) = 32%nat.
Proof.
  exact (proj1 (calcKey_output_lengths (C := Demo.collaborators)
                  Demo.masterKey (repeat x01 16) false digest_length)).
Defined.

(** ** What decryption does not look at *)

(** X22: the outcome of [decryptMessageData] depends on the state only
    through the authorization key, the replay window and the security
    switch: salt, session id, time offset and the two counters play no
    part (the session-id comparison has an empty branch). *)
Theorem decrypt_reads_key_window_switch `{C : Collaborators}
  (s s' : MTProtoState) (body : bytes)
  (Hk : authKey s' = authKey s) (Hw : msgIds s' = msgIds s)
  (Hc : securityChecks s' = securityChecks s) :
  fst (decryptMessageData s' body) = fst (decryptMessageData s body)
  /\ msgIds (snd (decryptMessageData s' body))
     = msgIds (snd (decryptMessageData s body)).
Proof.
  unfold decryptMessageData.
  rewrite (decryptBody_authKey s s' body Hk).
  destruct (decryptBody s body) as [pt | e];
    [| split; [reflexivity | exact Hw]].
  unfold readMessage. rewrite Hw, Hc.
  destruct (readHeader pt) as [[m r3] |];
    [| split; [reflexivity | exact Hw]].
  destruct (Helpers.includes _ _ && securityChecks s);
    [split; [reflexivity | exact Hw] |].
  destruct (BinaryReader.readInt r3) as [[q r4] |];
    [destruct (BinaryReader.readInt r4) as [[l r5] |];
     [destruct (tgReadObject r5) |] |];
    split; reflexivity.
Qed.

Lemma decrypt_reads_key_window_switch_witness :
  fst (decryptMessageData (C := Demo.collaborators)
         (reset (Demo.state true) 99) (Demo.frame 7))
  = fst (decryptMessageData (C := Demo.collaborators)
           (Demo.state true) (Demo.frame 7)).
Proof.
  exact (proj1 (decrypt_reads_key_window_switch (C := Demo.collaborators)
                  (Demo.state true) (reset (Demo.state true) 99)
                  (Demo.frame 7) eq_refl eq_refl eq_refl)).
Defined.

Section LengthField.
Context `{C : Collaborators}.
Hypothesis sha256_length : forall b, List.length (sha256 b) = 32%nat.
Hypothesis ige_inverse : forall k i p, decryptIge k i (encryptIge k i p) = p.

Lemma readMessage_fields (s : MTProtoState)
  (saltB sidB idB qB lB rest : bytes) :
  List.length saltB = 8%nat -> List.length sidB = 8%nat ->
  List.length idB = 8%nat -> List.length qB = 4%nat ->
  List.length lB = 4%nat ->
  readMessage s (saltB ++ sidB ++ idB ++ qB ++ lB ++ rest)
  = let m := Buf.le_signed idB in
    if Helpers.includes (msgIds s) (Helpers.toString m) && securityChecks s
    then (Err duplicateMsgIds, s)
    else
      let s1 :=
        set_msgIds s (recordMsgId (msgIds s) (Helpers.toString m)) in
      match tgReadObject rest with
      | None => (Err DecodeError, s1)
      | Some o => (Ok (mkTLMessage _ m (Buf.le_signed qB) o), s1)
      end.
Proof.
  intros H1 H2 H3 H4 H5. unfold readMessage, readHeader.
  rewrite (readLong_app saltB _ H1), (readLong_app sidB _ H2),
    (readLong_app idB _ H3).
  cbv zeta. destruct (Helpers.includes _ _ && securityChecks s);
    [reflexivity |].
  rewrite (readInt_app qB _ H4), (readInt_app lB _ H5). reflexivity.
Qed.

(** X23: the 4-byte body length inside the plaintext is read and dropped:
    two remote frames whose plaintexts differ only in that field decrypt to
    the same outcome and the same window, and so do two that differ only in
    the salt or in the session id. *)
Theorem length_field_ignored (s : MTProtoState) (ak : AuthKey)
  (masterKey : bytes) (kid : Z)
  (saltB saltB' sidB sidB' idB qB lB lB' rest : bytes)
  (Hak : authKey s = Some ak) (Hkey : getKey ak = Some masterKey)
  (Hkid : keyId ak = Some kid) (Hrange : 0 <= kid < 2 ^ 64)
  (H1 : List.length saltB = 8%nat) (H1' : List.length saltB' = 8%nat)
  (H2 : List.length sidB = 8%nat) (H2' : List.length sidB' = 8%nat)
  (H3 : List.length idB = 8%nat) (H4 : List.length qB = 4%nat)
  (H5 : List.length lB = 4%nat) (H5' : List.length lB' = 4%nat) :
  decryptMessageData s
    (remoteFrame kid masterKey
       (saltB ++ sidB ++ idB ++ qB ++ lB ++ rest))
  = decryptMessageData s
      (remoteFrame kid masterKey
         (saltB' ++ sidB' ++ idB ++ qB ++ lB' ++ rest)).
Proof.
  unfold decryptMessageData.
  rewrite !(decryptBody_remoteFrame sha256_length ige_inverse
              s ak masterKey kid _ Hak Hkey Hkid Hrange).
  rewrite (readMessage_fields s saltB sidB idB qB lB rest) by assumption.
  rewrite (readMessage_fields s saltB' sidB' idB qB lB' rest) by assumption.
  reflexivity.
Qed.

End LengthField.

Lemma length_field_ignored_witness :
  decryptMessageData (C := Demo.collaborators) (Demo.state true)
    (remoteFrame (C := Demo.collaborators) 0x1122334455667788
       Demo.masterKey
       (Buf.le_bytes 8 77 ++ Buf.le_bytes 8 1 ++ Buf.le_bytes 8 40
        ++ Buf.le_bytes 4 3 ++ Buf.le_bytes 4 4 ++ [x01; x07]))
  = decryptMessageData (C := Demo.collaborators) (Demo.state true)
      (remoteFrame (C := Demo.collaborators) 0x1122334455667788
         Demo.masterKey
         (Buf.le_bytes 8 78 ++ Buf.le_bytes 8 2 ++ Buf.le_bytes 8 40
          ++ Buf.le_bytes 4 3 ++ Buf.le_bytes 4 999 ++ [x01; x07])).
Proof.
  exact (length_field_ignored (C := Demo.collaborators)
           digest_length demo_ige_inverse (Demo.state true) Demo.key
           Demo.masterKey 0x1122334455667788
           (Buf.le_bytes 8 77) (Buf.le_bytes 8 78)
           (Buf.le_bytes 8 1) (Buf.le_bytes 8 2) (Buf.le_bytes 8 40)
           (Buf.le_bytes 4 3) (Buf.le_bytes 4 4) (Buf.le_bytes 4 999)
           [x01; x07]
           eq_refl eq_refl eq_refl ltac:(lia)
           eq_refl eq_refl eq_refl eq_refl eq_refl eq_refl eq_refl eq_refl).
Defined.
